(** * RouteWeather: route sampling, arrival estimation, forecast alignment

    A shallow embedding of [routing.py], [weather.py] and the request
    handler of [app.py], followed by the properties of the planning core.

    Conventions of the embedding.
    - Python [float] values are exact rationals ([Q]); two floats are "the
      same" when they are [==] ([Qeq]).  IEEE rounding, NaN and the
      infinities are outside the rational model; the one place where the
      source distinguishes them ([int()] applied to a float inside
      [decode_precipitation_type]) has its own value type [Py.pyfloat].
    - A Python call either returns, raises, or does not come back; this is
      [Py.outcome].  Loops that the source does not bound are run on fuel,
      and [OutOfFuel] stands for "still looping".
    - Library functions whose text is not part of the repository
      ([datetime.fromisoformat], [isoformat], [strftime], the haversine
      trigonometry) are fields of an interface class; a concrete instance
      is given for running examples.
    - [datetime] values are microsecond counts on an unbounded time line
      (no [OverflowError] past year 9999), naive or with a UTC offset.
    - [render_template] and [build_map] are outside the model: a response
      is the data handed to the template. *)

From Stdlib Require Import ZArith QArith Qround Qabs List String Ascii Bool.
From Stdlib Require Import Lia Lqa DecimalString Permutation.
Import ListNotations.

Local Open Scope Q_scope.

(* ================================================================== *)
(** ** The Python runtime fragment the three files rely on *)
(* ================================================================== *)

Module Py.

Inductive exn_kind : Type :=
| ZeroDivisionError
| TypeError
| ValueError
| OverflowError
| IndexError
| KeyError
| RuntimeError
| RequestException.

(** An exception object: its class and the text [str(e)] yields. *)
Record exn : Type := Exn { exn_class : exn_kind; exn_msg : string }.

Inductive outcome (A : Type) : Type :=
| Ret (a : A)
| Raise (e : exn)
| OutOfFuel.

Arguments Ret {A} a.
Arguments Raise {A} e.
Arguments OutOfFuel {A}.

Definition bind {A B : Type} (m : outcome A) (k : A -> outcome B) : outcome B :=
  match m with
  | Ret a => k a
  | Raise e => Raise e
  | OutOfFuel => OutOfFuel
  end.

(** [try: m  except Exception as e: h e] *)
Definition try_except {A : Type} (m : outcome A) (h : exn -> outcome A) : outcome A :=
  match m with
  | Raise e => h e
  | other => other
  end.

Definition returns {A : Type} (m : outcome A) : Prop := exists a, m = Ret a.

(** [str(n)] for an integer. *)
Definition show_Z (z : Z) : string := NilZero.string_of_int (Z.to_int z).

(** Round to the nearest integer, ties to the even neighbour: what the
    built-in [round(x)] does. *)
Definition round_half_even (x : Q) : Z :=
  let f := Qfloor x in
  let r := x - inject_Z f in
  match Qcompare r (1 # 2) with
  | Lt => f
  | Gt => (f + 1)%Z
  | Eq => if Z.even f then f else (f + 1)%Z
  end.

Definition pow10 (n : nat) : Q := inject_Z (10 ^ Z.of_nat n).

(** [round(x, ndigits)] *)
Definition round (x : Q) (ndigits : nat) : Q :=
  inject_Z (round_half_even (x * pow10 ndigits)) / pow10 ndigits.

(** [int(x)] on a finite float: truncation toward zero. *)
Definition trunc (x : Q) : Z := Z.quot (Qnum x) (Zpos (Qden x)).

(** [x or 0.0] where [x] is a float or [None]. *)
Definition or_zero (x : option Q) : Q :=
  match x with
  | Some q => if Qeq_bool q 0 then 0 else q
  | None => 0
  end.

Definition qmin (a b : Q) : Q := if Qlt_le_dec b a then b else a.

(** Float values as [int()] tells them apart. *)
Inductive pyfloat : Type :=
| Finite (q : Q)
| NaN
| Infinity (negative : bool).

(** The values a JSON payload or a caller can hand to a function that
    takes "a code": [None], a bool, an int, a float, a string, or a
    container (list or dict). *)
Inductive pyval : Type :=
| PyNone
| PyBool (b : bool)
| PyInt (z : Z)
| PyFloat (x : pyfloat)
| PyStr (s : string)
| PyContainer.

(** A naive or aware [datetime]: the wall-clock reading in microseconds
    since 1970-01-01T00:00:00 and, when aware, the UTC offset in
    microseconds. *)
Record datetime : Type := DateTime { wall_us : Z; utcoffset : option Z }.

(** The library functions used by the program whose text lies outside
    the repository. [int_of_str s] is [int(s)] on a string, [None] when
    it raises [ValueError]. *)
Class Lib : Type := {
  fromisoformat : string -> option datetime;
  isoformat : datetime -> string;
  strftime : datetime -> string -> string;
  int_of_str : string -> option Z
}.

(** [a - b] on datetimes: a [timedelta] in microseconds; mixing a naive
    and an aware operand raises [TypeError]. *)
Definition datetime_sub (a b : datetime) : outcome Z :=
  match utcoffset a, utcoffset b with
  | None, None => Ret (wall_us a - wall_us b)%Z
  | Some oa, Some ob => Ret ((wall_us a - oa) - (wall_us b - ob))%Z
  | _, _ => Raise (Exn TypeError "can't subtract offset-naive and offset-aware datetimes")
  end.

(** [td.total_seconds()]: the microsecond count divided by 10^6.  As a
    float this division keeps distinct durations distinct and ordered up
    to 2^52 microseconds (some 140 years), far beyond the 12 hours the
    result is compared with. *)
Definition total_seconds (td : Z) : Q := td # 1000000.

(** [timedelta(hours=h)]: the nearest whole number of microseconds. *)
Definition timedelta_hours (h : Q) : Z := round_half_even (h * 3600000000).

Definition datetime_add (d : datetime) (td : Z) : datetime :=
  {| wall_us := (wall_us d + td)%Z; utcoffset := utcoffset d |}.

(** [d.astimezone(timezone.utc).replace(tzinfo=None)] on an aware value. *)
Definition to_naive_utc (d : datetime) : datetime :=
  match utcoffset d with
  | Some off => {| wall_us := (wall_us d - off)%Z; utcoffset := None |}
  | None => d
  end.

(** [int(x)] for the values above. *)
Definition int_of `{Lib} (v : pyval) : outcome Z :=
  match v with
  | PyNone => Raise (Exn TypeError "int() argument must be a string, a bytes-like object or a real number, not 'NoneType'")
  | PyBool b => Ret (if b then 1 else 0)%Z
  | PyInt z => Ret z
  | PyFloat (Finite q) => Ret (trunc q)
  | PyFloat NaN => Raise (Exn ValueError "cannot convert float NaN to integer")
  | PyFloat (Infinity _) => Raise (Exn OverflowError "cannot convert float infinity to integer")
  | PyStr s =>
      match int_of_str s with
      | Some z => Ret z
      | None => Raise (Exn ValueError "invalid literal for int() with base 10")
      end
  | PyContainer => Raise (Exn TypeError "int() argument must be a string, a bytes-like object or a real number, not 'list'")
  end.

End Py.

Notation "x <- m ;; k" := (Py.bind m (fun x => k))
  (at level 61, m at next level, right associativity).

(* ================================================================== *)
(** ** The records passed along the pipeline *)
(* ================================================================== *)

Module Data.

(** The dict built by [_fetch_one] and [_weather_unavailable]. The key
    ["reason"] exists only in the unavailable record. *)
Record weather_record : Type := {
  available : bool;
  reason : option string;
  temp_f : option Q;
  precip_in_hr : Q;
  rain_in_hr : Q;
  showers_in_hr : Q;
  snowfall_in_hr : Q;
  cloud_pct : Q;
  wind_mph : Q;
  wind_dir : string;
  vis_mi : Q;
  wind_warning : bool;
  precip_type_code : option Z;
  weather_code : option Z;
  condition : option string;
  precip_type : option string
}.

(** The waypoint dict. Keys added by later stages are [None] until the
    stage has run. *)
Record waypoint : Type := {
  lon : Q;
  lat : Q;
  mile : Q;
  label : string;
  arrival_dt : option Py.datetime;
  arrival_str : option string;
  weather : option weather_record
}.

Definition set_arrival (wp : waypoint) (d : Py.datetime) (s : string) : waypoint :=
  {| lon := lon wp; lat := lat wp; mile := mile wp; label := label wp;
     arrival_dt := Some d; arrival_str := Some s; weather := weather wp |}.

Definition set_weather (wp : waypoint) (w : weather_record) : waypoint :=
  {| lon := lon wp; lat := lat wp; mile := mile wp; label := label wp;
     arrival_dt := arrival_dt wp; arrival_str := arrival_str wp;
     weather := Some w |}.

(** [d.get(k)] on a dict with integer keys, and with string keys. *)
Fixpoint zdict_get {V : Type} (d : list (Z * V)) (k : Z) : option V :=
  match d with
  | [] => None
  | (k', v) :: rest => if Z.eqb k' k then Some v else zdict_get rest k
  end.

Fixpoint sdict_get {V : Type} (d : list (string * V)) (k : string) : option V :=
  match d with
  | [] => None
  | (k', v) :: rest => if String.eqb k' k then Some v else sdict_get rest k
  end.

(** [waypoints[idx][key] = v] through a field setter. *)
Fixpoint list_update {A : Type} (l : list A) (idx : nat) (f : A -> A) : list A :=
  match l, idx with
  | [], _ => []
  | x :: rest, O => f x :: rest
  | x :: rest, S i => x :: list_update rest i f
  end.

End Data.

(* ================================================================== *)
(** ** routing.py *)
(* ================================================================== *)

Module Routing.
Import Py Data.

Definition coord : Type := (Q * Q)%type.

(** [haversine_mi] is built from [math.sin], [cos], [asin] and [sqrt];
    the sampler uses only that it is a length: never negative, and zero
    between a point and itself. *)
Class Geodesy : Type := {
  haversine_mi : Q -> Q -> Q -> Q -> Q;
  haversine_nonneg : forall lon1 lat1 lon2 lat2, 0 <= haversine_mi lon1 lat1 lon2 lat2;
  haversine_same : forall lon1 lat1, haversine_mi lon1 lat1 lon1 lat1 == 0
}.

Definition interpolate_point (lon1 lat1 lon2 lat2 frac : Q) : Q * Q :=
  (lon1 + (lon2 - lon1) * frac, lat1 + (lat2 - lat1) * frac).

Definition checkpoint_label (wp_index : Z) (next_target : Q) : string :=
  ("Checkpoint " ++ show_Z wp_index ++ " (Mile "
     ++ show_Z (round_half_even next_target) ++ ")")%string.

Definition destination_label (total_dist_mi : Q) : string :=
  ("Destination (Mile " ++ show_Z (round_half_even total_dist_mi) ++ ")")%string.

Definition new_waypoint (lon lat mile : Q) (label : string) : waypoint :=
  {| lon := lon; lat := lat; mile := mile; label := label;
     arrival_dt := None; arrival_str := None; weather := None |}.

(** The variables the two loops of [sample_waypoints] update. *)
Record sampler : Type := {
  waypoints : list waypoint;
  next_target : Q;
  wp_index : Z
}.

(** [while next_target <= accumulated + seg_dist: ...] for one segment.
    One unit of fuel pays for one evaluation of the loop test. *)
Fixpoint while_target (fuel : nat) (prev cur : coord)
         (accumulated seg_dist interval_mi : Q) (st : sampler) : outcome sampler :=
  match fuel with
  | O => OutOfFuel
  | S fuel' =>
      if Qle_bool (next_target st) (accumulated + seg_dist) then
        if Qeq_bool seg_dist 0 then
          Raise (Exn ZeroDivisionError "float division by zero")
        else
          let frac := (next_target st - accumulated) / seg_dist in
          let '(lon, lat) :=
            interpolate_point (fst prev) (snd prev) (fst cur) (snd cur) frac in
          while_target fuel' prev cur accumulated seg_dist interval_mi
            {| waypoints := waypoints st ++
                 [new_waypoint lon lat (round (next_target st) 1)
                    (checkpoint_label (wp_index st) (next_target st))];
               next_target := next_target st + interval_mi;
               wp_index := (wp_index st + 1)%Z |}
      else Ret st
  end.

(** [for i in range(1, len(coords)): ...] over the points after the first. *)
Fixpoint for_segments `{Geodesy} (fuel : nat) (rest : list coord) (prev : coord)
         (accumulated interval_mi : Q) (st : sampler) : outcome sampler :=
  match rest with
  | [] => Ret st
  | cur :: rest' =>
      let seg_dist := haversine_mi (fst prev) (snd prev) (fst cur) (snd cur) in
      st' <- while_target fuel prev cur accumulated seg_dist interval_mi st ;;
      for_segments fuel rest' cur (accumulated + seg_dist) interval_mi st'
  end.

(** The dict appended after the loop, from [coords[-1]]. *)
Definition destination_waypoint (end_point : coord) (total_dist_mi : Q) : waypoint :=
  let '(end_lon, end_lat) := end_point in
  new_waypoint end_lon end_lat (round total_dist_mi 1) (destination_label total_dist_mi).

Definition sample_waypoints `{Geodesy} (fuel : nat) (coords : list coord)
           (interval_mi total_dist_mi : Q) : outcome (list waypoint) :=
  match coords with
  | [] => Raise (Exn IndexError "list index out of range")
  | first :: rest =>
      st <- for_segments fuel rest first 0 interval_mi
              {| waypoints := []; next_target := interval_mi; wp_index := 1 |} ;;
      Ret (waypoints st ++ [destination_waypoint (last coords first) total_dist_mi])
  end.

(** The value of [accumulated] once the segments from [prev] through
    [rest] have been walked, and the length of a whole geometry. *)
Fixpoint walked `{Geodesy} (accumulated : Q) (prev : coord) (rest : list coord) : Q :=
  match rest with
  | [] => accumulated
  | cur :: rest' =>
      walked (accumulated + haversine_mi (fst prev) (snd prev) (fst cur) (snd cur))
             cur rest'
  end.

Definition geometry_length `{Geodesy} (coords : list coord) : Q :=
  match coords with
  | [] => 0
  | first :: rest => walked 0 first rest
  end.

(** The [k]-th sampling distance, [k * interval_mi]. *)
Definition target (interval_mi : Q) (k : nat) : Q :=
  inject_Z (Z.of_nat k) * interval_mi.

(** The waypoint appended for the [j]-th target met (counting from 0),
    as far as its distance, label and later-stage keys go. *)
Definition is_checkpoint (interval_mi : Q) (j : nat) (wp : waypoint) : Prop :=
  mile wp = round (target interval_mi (S j)) 1
  /\ label wp = checkpoint_label (Z.of_nat (S j)) (target interval_mi (S j))
  /\ arrival_dt wp = None /\ arrival_str wp = None /\ weather wp = None.

(** What holds of the sampler's variables whenever the loop test is
    evaluated, with [bound] the distance walked so far: [k] waypoints
    have been appended, they are the first [k] checkpoints, the next
    target is the [(k+1)]-th, and the [k]-th lies within [bound]. *)
Definition sampler_inv (interval_mi bound : Q) (st : sampler) : Prop :=
  let k := List.length (waypoints st) in
  next_target st == target interval_mi (S k)
  /\ wp_index st = Z.of_nat (S k)
  /\ target interval_mi k <= bound
  /\ forall j wp, nth_error (waypoints st) j = Some wp -> is_checkpoint interval_mi j wp.

(** Every segment from [prev] through [rest] has length zero. *)
Fixpoint segments_all_zero `{Geodesy} (prev : coord) (rest : list coord) : Prop :=
  match rest with
  | [] => True
  | cur :: rest' =>
      haversine_mi (fst prev) (snd prev) (fst cur) (snd cur) == 0
      /\ segments_all_zero cur rest'
  end.

Definition destination (coords : list coord) (total_dist_mi : Q) : waypoint :=
  match coords with
  | [] => destination_waypoint (0, 0) total_dist_mi
  | first :: _ => destination_waypoint (last coords first) total_dist_mi
  end.

(** A list is non-decreasing in its [mile] field. *)
Fixpoint miles_sorted (l : list waypoint) : Prop :=
  match l with
  | [] => True
  | a :: rest =>
      match rest with
      | [] => True
      | b :: _ => mile a <= mile b /\ miles_sorted rest
      end
  end.

Definition arrival_format : string := "%a %b %-d, %I:%M %p".

(** The elapsed hours to a waypoint and the arrival they give. *)
Definition hours_elapsed (mile avg_speed_mph : Q) : Q := mile / avg_speed_mph.

Definition arrival_of (departure_dt : datetime) (mile avg_speed_mph : Q) : datetime :=
  datetime_add departure_dt (timedelta_hours (hours_elapsed mile avg_speed_mph)).

Fixpoint estimate_arrival_times `{Lib} (waypoints : list waypoint)
         (departure_dt : datetime) (avg_speed_mph : Q) : outcome (list waypoint) :=
  match waypoints with
  | [] => Ret []
  | wp :: rest =>
      if Qeq_bool avg_speed_mph 0 then
        Raise (Exn ZeroDivisionError "float division by zero")
      else
        let arrival := arrival_of departure_dt (mile wp) avg_speed_mph in
        rest' <- estimate_arrival_times rest departure_dt avg_speed_mph ;;
        Ret (set_arrival wp arrival (strftime arrival arrival_format) :: rest')
  end.

End Routing.

(* ================================================================== *)
(** ** weather.py *)
(* ================================================================== *)

Module Weather.
Import Py Data.

Definition _PRECIP_TYPE_MAP : list (Z * (option string * string)) :=
  [ (0,  (None,                 "No precipitation"));
    (1,  (Some "rain",          "Rain"));
    (3,  (Some "freezing_rain", "Freezing rain"));
    (5,  (Some "snow",          "Snow"));
    (6,  (Some "snow",          "Wet snow"));
    (7,  (Some "sleet",         "Rain/snow mix"));
    (8,  (Some "sleet",         "Ice pellets"));
    (12, (Some "freezing_rain", "Freezing drizzle")) ]%Z%string.

Record decoded : Type := { d_precip_type : option string; d_label : string }.

Definition unknown_code : decoded :=
  {| d_precip_type := None; d_label := "Unknown" |}.

Definition decode_precipitation_type `{Lib} (code : pyval) : outcome decoded :=
  match code with
  | PyNone => Ret unknown_code
  | _ =>
      match int_of code with
      | Ret c =>
          let '(precip_type, label) :=
            match zdict_get _PRECIP_TYPE_MAP c with
            | Some entry => entry
            | None => (None, ("Type " ++ show_Z c)%string)
            end in
          Ret {| d_precip_type := precip_type; d_label := label |}
      | Raise e =>
          match exn_class e with
          | TypeError | ValueError => Ret unknown_code
          | _ => Raise e
          end
      | OutOfFuel => OutOfFuel
      end
  end.

Definition _WMO_LABEL : list (Z * string) :=
  [ (0, "Clear sky"); (1, "Mainly clear"); (2, "Partly cloudy"); (3, "Overcast");
    (45, "Fog"); (48, "Rime fog");
    (51, "Light drizzle"); (53, "Moderate drizzle"); (55, "Dense drizzle");
    (56, "Light freezing drizzle"); (57, "Heavy freezing drizzle");
    (61, "Slight rain"); (63, "Moderate rain"); (65, "Heavy rain");
    (66, "Light freezing rain"); (67, "Heavy freezing rain");
    (71, "Slight snow"); (73, "Moderate snow"); (75, "Heavy snow"); (77, "Snow grains");
    (80, "Slight showers"); (81, "Moderate showers"); (82, "Heavy showers");
    (85, "Slight snow showers"); (86, "Heavy snow showers");
    (95, "Thunderstorm"); (96, "Thunderstorm w/ hail"); (99, "Thunderstorm w/ hail")
  ]%Z%string.

Definition _WMO_PRECIP_TYPE : list (Z * string) :=
  [ (45, "fog"); (48, "fog");
    (80, "showers"); (81, "showers"); (82, "showers");
    (85, "snow_showers"); (86, "snow_showers");
    (95, "thunderstorm"); (96, "thunderstorm"); (99, "thunderstorm") ]%Z%string.

(** Truthiness of an optional string: neither [None] nor empty. *)
Definition truthy (s : option string) : bool :=
  match s with
  | Some EmptyString => false
  | Some _ => true
  | None => false
  end.

Definition is_none {A : Type} (x : option A) : bool :=
  match x with None => true | Some _ => false end.

(** [wmo_override in ("fog", "thunderstorm")] *)
Definition fog_or_thunderstorm (wmo_override : option string) : bool :=
  match wmo_override with
  | Some s => String.eqb s "fog" || String.eqb s "thunderstorm"
  | None => false
  end.

(** The refinement block of [_fetch_one] (the [if wmo_int is not None]
    statement): from the primary decode and the integer WMO code to the
    final [(precip_type, condition)]. *)
Definition refine_with_wmo (pt_decoded : decoded) (wmo_int : option Z)
  : option string * option string :=
  let precip_type := d_precip_type pt_decoded in
  let condition := Some (d_label pt_decoded) in
  match wmo_int with
  | Some w =>
      let wmo_override := zdict_get _WMO_PRECIP_TYPE w in
      let wmo_label := zdict_get _WMO_LABEL w in
      if fog_or_thunderstorm wmo_override then (wmo_override, wmo_label)
      else if is_none precip_type && truthy wmo_override then (wmo_override, wmo_label)
      else if is_none precip_type && truthy wmo_label then (precip_type, wmo_label)
      else (precip_type, condition)
  | None => (precip_type, condition)
  end.

(** [diff < best_diff], where [best_diff] starts as [float("inf")]. *)
Definition below (diff : Q) (best_diff : option Q) : bool :=
  match best_diff with
  | None => true
  | Some b => negb (Qle_bool b diff)
  end.

(** The [for i, t_str in enumerate(times)] loop, from index [i] on. *)
Fixpoint nearest_scan `{Lib} (times : list string) (i : nat) (target : datetime)
         (best_idx : option nat) (best_diff : option Q)
  : outcome (option nat * option Q) :=
  match times with
  | [] => Ret (best_idx, best_diff)
  | t_str :: rest =>
      match fromisoformat t_str with
      | None => nearest_scan rest (S i) target best_idx best_diff
      | Some t =>
          td <- datetime_sub t target ;;
          let diff := Qabs (total_seconds td) in
          if below diff best_diff
          then nearest_scan rest (S i) target (Some i) (Some diff)
          else nearest_scan rest (S i) target best_idx best_diff
      end
  end.

Definition horizon_seconds : Q := 12 * 3600.

Definition _nearest_hour_index `{Lib} (times : list string) (target : datetime)
  : outcome (option nat) :=
  r <- nearest_scan times 0 target None None ;;
  let '(best_idx, best_diff) := r in
  match best_diff with
  | Some d => if Qle_bool d horizon_seconds then Ret best_idx else Ret None
  | None => Ret None
  end.

(** The distance in seconds between [target] and the entry [t_str],
    when the entry parses and the subtraction is defined. *)
Definition entry_diff `{Lib} (target : datetime) (t_str : string) : option Q :=
  match fromisoformat t_str with
  | Some t =>
      match datetime_sub t target with
      | Ret td => Some (Qabs (total_seconds td))
      | _ => None
      end
  | None => None
  end.

Definition diff_at `{Lib} (times : list string) (target : datetime) (i : nat) : option Q :=
  match nth_error times i with
  | Some t_str => entry_diff target t_str
  | None => None
  end.

(** A parsable entry is naive exactly when [target] is. *)
Definition same_awareness `{Lib} (target : datetime) (t_str : string) : Prop :=
  match fromisoformat t_str with
  | Some t => is_none (utcoffset t) = is_none (utcoffset target)
  | None => True
  end.

(** What the scan knows after the entries before index [i]. *)
Definition scan_inv `{Lib} (times : list string) (target : datetime) (i : nat)
           (best_idx : option nat) (best_diff : option Q) : Prop :=
  match best_idx, best_diff with
  | None, None => forall j, (j < i)%nat -> diff_at times target j = None
  | Some b, Some d =>
      (b < i)%nat
      /\ diff_at times target b = Some d
      /\ (forall j d', (j < i)%nat -> diff_at times target j = Some d' -> d <= d')
      /\ (forall j d', (j < b)%nat -> diff_at times target j = Some d' -> d < d')
  | _, _ => False
  end.

Definition _weather_unavailable (reason : string) : weather_record :=
  {| available := false;
     reason := Some reason;
     temp_f := None;
     precip_in_hr := 0;
     rain_in_hr := 0;
     showers_in_hr := 0;
     snowfall_in_hr := 0;
     cloud_pct := 0;
     wind_mph := 0;
     wind_dir := "—";
     vis_mi := 0;
     wind_warning := false;
     precip_type_code := None;
     weather_code := None;
     condition := Some "Unavailable"%string;
     precip_type := None |}.

Definition directions : list string :=
  [ "N"; "NNE"; "NE"; "ENE"; "E"; "ESE"; "SE"; "SSE";
    "S"; "SSW"; "SW"; "WSW"; "W"; "WNW"; "NW"; "NNW" ]%string.

Definition _degrees_to_compass (degrees : option Q) : string :=
  match degrees with
  | None => "—"
  | Some d =>
      nth (Z.to_nat (round_half_even (d / (45 # 2)) mod 16)) directions ""%string
  end.

(** One element of an hourly array: [null], a value [float()] converts
    to a finite number (a number or a numeric string), or a value on
    which [float()] raises [TypeError] or [ValueError].  Elements that
    convert to NaN or an infinity are outside this type. *)
Inductive jval : Type :=
| JNull
| JNum (x : Q)
| JBad.

(** The ["hourly"] object: its ["time"] list (empty when the key is
    absent) and the other arrays by key. *)
Record hourly_data : Type := {
  time : list string;
  series : list (string * list jval)
}.

(** What [requests.get] and [resp.json()] can produce for one waypoint:
    the call raises (timeout, connection error), or there is a response
    with a status code whose body is not JSON, or is a JSON object with
    or without the ["hourly"] key. *)
Inductive body : Type :=
| BadJson (e : exn)
| Json (hourly : option hourly_data).

Inductive http : Type :=
| NetFailure (e : exn)
| Response (status_code : Z) (payload : body).

(** The local function [val] of [_fetch_one]. *)
Definition val (hourly : hourly_data) (best_idx : nat) (key : string)
           (fallback : option Q) : option Q :=
  let arr := match sdict_get (series hourly) key with
             | Some a => a
             | None => []
             end in
  match nth_error arr best_idx with
  | Some JNull => fallback
  | Some (JNum x) => Some x
  | Some JBad => fallback
  | None => fallback
  end.

(** [arr[best_idx]] for the array under [key], when there is one. *)
Definition element (hourly : hourly_data) (best_idx : nat) (key : string) : option jval :=
  nth_error (match sdict_get (series hourly) key with
             | Some a => a
             | None => []
             end) best_idx.

Definition is_null (hourly : hourly_data) (best_idx : nat) (key : string) : Prop :=
  element hourly best_idx key = Some JNull.

Definition has_value (hourly : hourly_data) (best_idx : nat) (key : string) (x : Q) : Prop :=
  element hourly best_idx key = Some (JNum x).

Definition code_value (x : option Q) : pyval :=
  match x with
  | Some q => PyFloat (Finite q)
  | None => PyNone
  end.

(** The part of [_fetch_one] after [best_idx] is known: reading the
    arrays through [val], converting, decoding, building the dict. *)
Definition populate `{Lib} (hourly : hourly_data) (best_idx : nat)
           (wind_warning_mph : Q) : outcome weather_record :=
  let temp_f := val hourly best_idx "temperature_2m" None in
  let precip_total := val hourly best_idx "precipitation" (Some 0) in
  let rain_in := val hourly best_idx "rain" (Some 0) in
  let showers_in := val hourly best_idx "showers" (Some 0) in
  let snowfall_cm := val hourly best_idx "snowfall" (Some 0) in
  let precip_type_code := val hourly best_idx "precipitation_type" None in
  let weather_code := val hourly best_idx "weather_code" None in
  let cloud_pct := val hourly best_idx "cloud_cover" (Some 0) in
  let wind_mph := val hourly best_idx "wind_speed_10m" (Some 0) in
  let wind_deg := val hourly best_idx "wind_direction_10m" (Some 0) in
  let vis_m := val hourly best_idx "visibility" (Some 16000) in
  let snowfall_in := or_zero snowfall_cm * (393701 # 1000000) in
  let vis_mi := or_zero vis_m / (160934 # 100) in
  let wind_dir := _degrees_to_compass wind_deg in
  pt_decoded <- decode_precipitation_type (code_value precip_type_code) ;;
  let wmo_int := option_map trunc weather_code in
  let '(precip_type, condition) := refine_with_wmo pt_decoded wmo_int in
  Ret {| available := true;
         reason := None;
         temp_f := option_map (fun t => round t 1) temp_f;
         precip_in_hr := round (or_zero precip_total) 4;
         rain_in_hr := round (or_zero rain_in) 4;
         showers_in_hr := round (or_zero showers_in) 4;
         snowfall_in_hr := round snowfall_in 4;
         cloud_pct := round (or_zero cloud_pct) 1;
         wind_mph := round (or_zero wind_mph) 1;
         wind_dir := wind_dir;
         vis_mi := round (qmin vis_mi 99) 1;
         wind_warning := Qle_bool wind_warning_mph (or_zero wind_mph);
         precip_type_code := option_map trunc precip_type_code;
         weather_code := wmo_int;
         condition := condition;
         precip_type := precip_type |}.

Definition _fetch_one `{Lib} (wp : waypoint) (wind_warning_mph : Q) (net : http)
  : outcome weather_record :=
  match arrival_dt wp with
  | None => Raise (Exn KeyError "'arrival_dt'")
  | Some arrival_dt =>
      let arrival_utc := to_naive_utc arrival_dt in
      match net with
      | NetFailure e => Raise e
      | Response status_code payload =>
          if negb (Z.eqb status_code 200) then
            Ret (_weather_unavailable
                   ("Open-Meteo returned HTTP " ++ show_Z status_code))
          else
            match payload with
            | BadJson e => Raise e
            | Json None =>
                Ret (_weather_unavailable "No hourly data in Open-Meteo response.")
            | Json (Some hourly) =>
                let times := time hourly in
                match times with
                | [] => Ret (_weather_unavailable "Empty time series from Open-Meteo.")
                | _ =>
                    best <- _nearest_hour_index times arrival_utc ;;
                    match best with
                    | None =>
                        Ret (_weather_unavailable
                               ("Arrival time " ++ isoformat arrival_utc
                                  ++ " is outside the 15-day forecast window."))
                    | Some best_idx => populate hourly best_idx wind_warning_mph
                    end
                end
            end
      end
  end.

(** The two shapes of a weather record. *)
Definition is_populated (w : weather_record) : Prop :=
  available w = true /\ reason w = None.

Definition is_unavailable (w : weather_record) : Prop :=
  available w = false /\ exists text, reason w = Some text.

(** The body of the [for future in as_completed(futures)] loop for the
    future of waypoint [idx]: [result] is what that worker's
    [_fetch_one] call produced. *)
Definition collect (result : outcome weather_record) : outcome weather_record :=
  try_except result (fun e => Ret (_weather_unavailable (exn_msg e))).

(** [fetch_weather_for_waypoints]. Every waypoint gets one worker, which
    runs [_fetch_one] on the waypoint as it was when submitted and on the
    network's answer to its own request, [net idx]. The futures are
    collected in completion order, [completed], which the thread pool
    decides: any ordering of the indices [0 .. len(waypoints)-1]. *)
Fixpoint collect_all `{Lib} (submitted : list waypoint) (wind_warning_mph : Q)
         (net : nat -> http) (completed : list nat) (waypoints : list waypoint)
  : outcome (list waypoint) :=
  match completed with
  | [] => Ret waypoints
  | idx :: later =>
      match nth_error submitted idx with
      | None => Raise (Exn IndexError "list index out of range")
      | Some wp =>
          w <- collect (_fetch_one wp wind_warning_mph (net idx)) ;;
          collect_all submitted wind_warning_mph net later
            (list_update waypoints idx (fun x => set_weather x w))
      end
  end.

(** Two waypoint dicts that agree on every key but ["weather"]. *)
Definition same_but_weather (x wp : waypoint) : Prop :=
  forall w, set_weather x w = set_weather wp w.

(** What holds of the list while futures are being collected, [done]
    telling which indices have been: every slot still holds its own
    waypoint, and a collected slot holds the record of its own worker. *)
Definition collect_inv `{Lib} (submitted : list waypoint) (wind_warning_mph : Q)
           (net : nat -> http) (current : list waypoint) (done : nat -> Prop) : Prop :=
  List.length current = List.length submitted
  /\ forall idx wp,
      nth_error submitted idx = Some wp ->
      exists x,
        nth_error current idx = Some x
        /\ same_but_weather x wp
        /\ (done idx ->
            forall w, collect (_fetch_one wp wind_warning_mph (net idx)) = Ret w ->
                      x = set_weather wp w).


Definition fetch_weather_for_waypoints `{Lib} (waypoints : list waypoint)
           (wind_warning_mph : Q) (net : nat -> http) (completed : list nat)
  : outcome (list waypoint) :=
  collect_all waypoints wind_warning_mph net completed waypoints.

End Weather.

(* ================================================================== *)
(** ** app.py: the [/plan] handler *)
(* ================================================================== *)

Module App.
Import Py Data Routing Weather.

(** The submitted form after lines 38-42 of [plan] have read it:
    the three text fields still unstripped, [interval] already through
    [int()] and [avg_speed] through [float()]. *)
Record form : Type := {
  start : string;
  end_ : string;
  departure : string;
  interval : Z;
  avg_speed : Q
}.

Record route_data : Type := {
  coords : list coord;
  distance_mi : Q;
  duration_hrs : Q
}.

(** Everything outside the process: the geocoder, the router, the
    forecast service's answer to the request of each waypoint, and the
    order in which the pool completes [n] futures. *)
Class World : Type := {
  geocode : string -> outcome (option coord);
  get_route : coord -> coord -> string -> option route_data;
  forecast : nat -> http;
  completion : nat -> list nat
}.

(** What [plan] hands to [render_template]. *)
Inductive response : Type :=
| IndexPage (errors : list string)
| ResultPage (waypoints : list waypoint) (total_mi duration : Q).

Definition is_space (c : ascii) : bool :=
  let n := nat_of_ascii c in
  (Nat.eqb n 32 || (Nat.leb 9 n && Nat.leb n 13))%bool.

Fixpoint lstrip (s : string) : string :=
  match s with
  | String c rest => if is_space c then lstrip rest else s
  | EmptyString => EmptyString
  end.

Fixpoint rstrip (s : string) : string :=
  match s with
  | String c rest =>
      match rstrip rest with
      | EmptyString => if is_space c then EmptyString else String c EmptyString
      | kept => String c kept
      end
  | EmptyString => EmptyString
  end.

Definition strip (s : string) : string := rstrip (lstrip s).

Definition is_empty (s : string) : bool :=
  match s with EmptyString => true | _ => false end.

Definition quoted (s : string) : string :=
  let q := String (Ascii false true false false false true false false) EmptyString in
  (q ++ s ++ q)%string.

(** The list [errors] after the three [if not ...] tests. *)
Definition validation_errors (start_addr end_addr depart_str : string) : list string :=
  ((if is_empty start_addr then ["Starting address is required."%string] else [])
     ++ (if is_empty end_addr then ["Ending address is required."%string] else [])
     ++ (if is_empty depart_str then ["Departure date & time is required."%string] else []))%list.

Definition plan `{Lib} `{Geodesy} `{World} (ORS_API_KEY : string) (WIND_WARNING_MPH : Z)
           (fuel : nat) (request : form) : outcome response :=
  let start_addr := strip (start request) in
  let end_addr := strip (end_ request) in
  let depart_str := strip (departure request) in
  let interval_mi := inject_Z (interval request) in
  let avg_speed := avg_speed request in
  match validation_errors start_addr end_addr depart_str with
  | (_ :: _) as errors => Ret (IndexPage errors)
  | [] =>
      match fromisoformat depart_str with
      | None => Ret (IndexPage ["Invalid date/time format."%string])
      | Some departure_dt =>
          start_coords <- geocode start_addr ;;
          end_coords <- geocode end_addr ;;
          match start_coords, end_coords with
          | None, _ =>
              Ret (IndexPage [("Could not find address: " ++ quoted start_addr)%string])
          | Some _, None =>
              Ret (IndexPage [("Could not find address: " ++ quoted end_addr)%string])
          | Some sc, Some ec =>
              match get_route sc ec ORS_API_KEY with
              | None =>
                  Ret (IndexPage ["Could not compute route. Check your ORS API key."%string])
              | Some route =>
                  let total_dist_mi := distance_mi route in
                  waypoints <- sample_waypoints fuel (coords route) interval_mi total_dist_mi ;;
                  waypoints <- estimate_arrival_times waypoints departure_dt avg_speed ;;
                  waypoints <- fetch_weather_for_waypoints waypoints
                                 (inject_Z WIND_WARNING_MPH) forecast
                                 (completion (List.length waypoints)) ;;
                  Ret (ResultPage waypoints (round total_dist_mi 1) (duration_hrs route))
              end
          end
      end
  end.

End App.

(* ================================================================== *)
(** ** A concrete library and world, for running the model *)
(* ================================================================== *)

Module Reference.
Import Py Data Routing Weather App.
Local Open Scope Z_scope.

Definition days_from_civil (y m d : Z) : Z :=
  let y' := if m <=? 2 then y - 1 else y in
  let era := y' / 400 in
  let yoe := y' - era * 400 in
  let doy := (153 * (if 2 <? m then m - 3 else m + 9) + 2) / 5 + d - 1 in
  let doe := yoe * 365 + yoe / 4 - yoe / 100 + doy in
  era * 146097 + doe - 719468.

Definition civil_from_days (z : Z) : Z * Z * Z :=
  let z' := z + 719468 in
  let era := z' / 146097 in
  let doe := z' - era * 146097 in
  let yoe := (doe - doe / 1460 + doe / 36524 - doe / 146096) / 365 in
  let doy := doe - (365 * yoe + yoe / 4 - yoe / 100) in
  let mp := (5 * doy + 2) / 153 in
  let d := doy - (153 * mp + 2) / 5 + 1 in
  let m := if mp <? 10 then mp + 3 else mp - 9 in
  ((if m <=? 2 then yoe + era * 400 + 1 else yoe + era * 400), m, d).

Definition is_leap (y : Z) : bool :=
  ((y mod 4 =? 0) && negb (y mod 100 =? 0) || (y mod 400 =? 0))%bool.

Definition days_in_month (y m : Z) : Z :=
  if m =? 2 then (if is_leap y then 29 else 28)
  else if (m =? 4) || (m =? 6) || (m =? 9) || (m =? 11) then 30 else 31.

Definition digit (c : ascii) : option Z :=
  let n := Z.of_nat (nat_of_ascii c) in
  if (48 <=? n) && (n <=? 57) then Some (n - 48) else None.

Definition digits2 (a b : ascii) : option Z :=
  match digit a, digit b with
  | Some x, Some y => Some (10 * x + y)
  | _, _ => None
  end.

Definition digits4 (a b c d : ascii) : option Z :=
  match digits2 a b, digits2 c d with
  | Some x, Some y => Some (100 * x + y)
  | _, _ => None
  end.

Definition us_per_second : Z := 1000000.

(** [+HH:MM] or [-HH:MM], or nothing, at the end of a timestamp. *)
Definition parse_offset (s : string) : option (option Z) :=
  match s with
  | EmptyString => Some None
  | String sg (String h1 (String h2 (String ":" (String m1 (String m2 EmptyString))))) =>
      match digits2 h1 h2, digits2 m1 m2 with
      | Some hh, Some mm =>
          if (hh <=? 23) && (mm <=? 59) then
            let off := (hh * 3600 + mm * 60) * us_per_second in
            if Ascii.eqb sg "+" then Some (Some off)
            else if Ascii.eqb sg "-" then Some (Some (- off))
            else None
          else None
      | _, _ => None
      end
  | _ => None
  end.

(** [:SS] or nothing, followed by the offset part. *)
Definition parse_seconds (s : string) : option (Z * option Z) :=
  match s with
  | String ":" (String s1 (String s2 rest)) =>
      match digits2 s1 s2, parse_offset rest with
      | Some ss, Some off => if ss <=? 59 then Some (ss, off) else None
      | _, _ => None
      end
  | _ =>
      match parse_offset s with
      | Some off => Some (0, off)
      | None => None
      end
  end.

(** [datetime.fromisoformat] on the shapes [YYYY-MM-DDTHH:MM] (what the
    forecast service and the form send) and [YYYY-MM-DDTHH:MM:SS], each
    with an optional [+HH:MM] or [-HH:MM].  Every other string is
    rejected here, among them some the library accepts (a date alone,
    fractional seconds); the examples below stay within the shapes
    listed or use text that is no timestamp at all. *)
Definition iso_parse (s : string) : option datetime :=
  match s with
  | String y1 (String y2 (String y3 (String y4 (String "-"
      (String mo1 (String mo2 (String "-" (String d1 (String d2
      (String sep (String h1 (String h2 (String ":"
      (String mi1 (String mi2 rest))))))))))))))) =>
      match digits4 y1 y2 y3 y4, digits2 mo1 mo2, digits2 d1 d2,
            digits2 h1 h2, digits2 mi1 mi2, parse_seconds rest with
      | Some y, Some mo, Some d, Some h, Some mi, Some (ss, off) =>
          if (1 <=? y) && (1 <=? mo) && (mo <=? 12) && (1 <=? d)
             && (d <=? days_in_month y mo) && (h <=? 23) && (mi <=? 59)
             && (Ascii.eqb sep "T" || Ascii.eqb sep " ")
          then Some {| wall_us := (days_from_civil y mo d * 86400
                                   + h * 3600 + mi * 60 + ss) * us_per_second;
                       utcoffset := off |}
          else None
      | _, _, _, _, _, _ => None
      end
  | _ => None
  end.

Definition pad2 (z : Z) : string :=
  (if Z.ltb z 10 then "0" ++ show_Z z else show_Z z)%string.

Definition pad4 (z : Z) : string :=
  ((if Z.ltb z 10 then "000" else if Z.ltb z 100 then "00" else if Z.ltb z 1000 then "0" else "")
     ++ show_Z z)%string.

Definition pad6 (z : Z) : string :=
  ((if Z.ltb z 10 then "00000" else if Z.ltb z 100 then "0000" else if Z.ltb z 1000 then "000"
    else if Z.ltb z 10000 then "00" else if Z.ltb z 100000 then "0" else "")
     ++ show_Z z)%string.

Definition iso_format (d : datetime) : string :=
  let secs := wall_us d / us_per_second in
  let us := wall_us d mod us_per_second in
  let days := secs / 86400 in
  let sod := secs mod 86400 in
  let '(y, m, dd) := civil_from_days days in
  (pad4 y ++ "-" ++ pad2 m ++ "-" ++ pad2 dd ++ "T"
     ++ pad2 (sod / 3600) ++ ":" ++ pad2 (sod mod 3600 / 60) ++ ":" ++ pad2 (sod mod 60)
     ++ (if Z.eqb us 0 then "" else "." ++ pad6 us)
     ++ match utcoffset d with
        | None => ""
        | Some off =>
            let a := Z.abs off / us_per_second in
            (if Z.ltb off 0 then "-" else "+") ++ pad2 (a / 3600) ++ ":" ++ pad2 (a mod 3600 / 60)
        end)%string.

Definition day_names : list string :=
  ["Mon"; "Tue"; "Wed"; "Thu"; "Fri"; "Sat"; "Sun"]%string.

Definition month_names : list string :=
  ["Jan"; "Feb"; "Mar"; "Apr"; "May"; "Jun";
   "Jul"; "Aug"; "Sep"; "Oct"; "Nov"; "Dec"]%string.

(** [strftime] for the format [estimate_arrival_times] passes,
    ["%a %b %-d, %I:%M %p"]; the format argument is not interpreted. *)
Definition format_arrival (d : datetime) (fmt : string) : string :=
  let secs := wall_us d / us_per_second in
  let days := secs / 86400 in
  let sod := secs mod 86400 in
  let '(y, m, dd) := civil_from_days days in
  let h := sod / 3600 in
  let h12 := if h mod 12 =? 0 then 12 else h mod 12 in
  (nth (Z.to_nat ((days + 3) mod 7)) day_names "" ++ " "
     ++ nth (Z.to_nat (m - 1)) month_names "" ++ " " ++ show_Z dd ++ ", "
     ++ pad2 h12 ++ ":" ++ pad2 (sod mod 3600 / 60) ++ " "
     ++ (if Z.ltb h 12 then "AM" else "PM"))%string.

Fixpoint decimal (s : string) (acc : Z) : option Z :=
  match s with
  | EmptyString => Some acc
  | String c rest =>
      match digit c with
      | Some x => decimal rest (10 * acc + x)
      | None => None
      end
  end.

(** [int(s)] on an optionally signed run of decimal digits, with blanks
    around it allowed (digit-group underscores are not handled). *)
Definition parse_int (s : string) : option Z :=
  match strip s with
  | EmptyString => None
  | String "-" (String c rest) => option_map Z.opp (decimal (String c rest) 0)
  | String "+" (String c rest) => decimal (String c rest) 0
  | digits => decimal digits 0
  end.

#[export] Instance lib : Lib := {|
  fromisoformat := iso_parse;
  isoformat := iso_format;
  strftime := format_arrival;
  int_of_str := parse_int
|}.

(** A forecast payload with nulls and an unconvertible element. *)
Definition sample_hourly : hourly_data :=
  {| time := ["2024-01-01T08:00"; "2024-01-01T09:00"; "2024-01-01T10:00"]%string;
     series :=
       [ ("temperature_2m"%string,     [JNum 31; JNull; JNum (59 # 2)]);
         ("precipitation"%string,      [JNum 0; JNum (1 # 50); JNull]);
         ("rain"%string,               [JNum 0; JNum 0; JNull]);
         ("showers"%string,            [JNum 0; JNum 0; JNull]);
         ("snowfall"%string,           [JNum 0; JNum (1 # 2); JNull]);
         ("precipitation_type"%string, [JNum 0; JNum 5; JNull]);
         ("weather_code"%string,       [JNum 3; JNum 73; JNull]);
         ("cloud_cover"%string,        [JNum 80; JNum 100; JNull]);
         ("wind_speed_10m"%string,     [JNum 12; JNum 45; JBad]);
         ("wind_direction_10m"%string, [JNum 270; JNum 315; JNull]);
         ("visibility"%string,         [JNum 24000; JNum 800; JNull]) ]%Q |}.

(** A world for examples: two known addresses 120 grid miles apart, a
    router that joins them by one segment, a forecast service that
    answers the first request, refuses the second and times out on the
    rest, and a pool that completes its futures last to first. *)
#[export] Instance world : World := {|
  geocode := fun address =>
    if String.eqb address "Origin" then Ret (Some (0, 0)%Q)
    else if String.eqb address "Destination" then Ret (Some (120 # 69, 0)%Q)
    else Ret None;
  get_route := fun start_coords end_coords _ =>
    Some {| coords := [start_coords; end_coords];
            distance_mi := 120%Q;
            duration_hrs := 2%Q |};
  forecast := fun idx =>
    match idx with
    | O => Response 200 (Json (Some sample_hourly))
    | S O => Response 503 (Json None)
    | _ => NetFailure (Exn RequestException "Read timed out. (read timeout=15)")
    end;
  completion := fun n => rev (seq 0 n)
|}.

(** Three waypoints as the estimator leaves them for a departure at
    2024-01-01T08:00 and 60 mph. *)
Definition timed_checkpoint : waypoint :=
  {| lon := 50 # 69; lat := 0; mile := 50; label := "Checkpoint 1 (Mile 50)";
     arrival_dt := Some {| wall_us := 1704099000000000; utcoffset := None |};
     arrival_str := Some "Mon Jan 1, 08:50 AM"%string; weather := None |}.


Definition sample_request (interval_mi : Z) (speed : Q) : form :=
  {| start := " Origin "; end_ := "Destination"; departure := "2024-01-01T08:00";
     interval := interval_mi; avg_speed := speed |}.

(** A stand-in length for examples: 69 miles per degree along the grid
    lines. It agrees with the haversine length on coincident points
    (both are 0), and examples that need more say so. *)
Definition grid_mi (lon1 lat1 lon2 lat2 : Q) : Q :=
  (69 * (Qabs (lon2 - lon1) + Qabs (lat2 - lat1)))%Q.

#[export, refine] Instance grid : Geodesy := {| haversine_mi := grid_mi |}.
Proof.
  - intros lon1 lat1 lon2 lat2. unfold grid_mi.
    pose proof (Qabs_nonneg (lon2 - lon1)). pose proof (Qabs_nonneg (lat2 - lat1)).
    nra.
  - intros lon1 lat1. unfold grid_mi.
    assert (E1 : (lon1 - lon1 == 0)%Q) by ring.
    assert (E2 : (lat1 - lat1 == 0)%Q) by ring.
    rewrite E1, E2. reflexivity.
Defined.

End Reference.

(* ================================================================== *)
(** ** routing.py: the two remote services *)
(* ================================================================== *)

Module Services.
Import Py Data Routing.

(** A parsed JSON document as Python holds it.  An object is the dict
    after parsing, so its keys are distinct. *)
#[local] Unset Elimination Schemes.
Inductive json : Type :=
| JsNull
| JsBool (b : bool)
| JsNumber (x : Q)
| JsString (s : string)
| JsArray (items : list json)
| JsObject (fields : list (string * json)).
#[local] Set Elimination Schemes.

(** Truthiness, as [if not results] tests it. *)
Definition truth (v : json) : bool :=
  match v with
  | JsNull => false
  | JsBool b => b
  | JsNumber x => negb (Qeq_bool x 0)
  | JsString EmptyString => false
  | JsString _ => true
  | JsArray [] => false
  | JsArray _ => true
  | JsObject [] => false
  | JsObject _ => true
  end.

(** [v[0]] *)
Definition first_item (v : json) : outcome json :=
  match v with
  | JsArray (x :: _) => Ret x
  | JsArray [] => Raise (Exn IndexError "list index out of range")
  | JsString (String c _) => Ret (JsString (String c EmptyString))
  | JsString EmptyString => Raise (Exn IndexError "string index out of range")
  | JsObject _ => Raise (Exn KeyError "0")
  | _ => Raise (Exn TypeError "object is not subscriptable")
  end.

(** [v[key]] for a string key. *)
Definition item (v : json) (key : string) : outcome json :=
  match v with
  | JsObject fields =>
      match sdict_get fields key with
      | Some x => Ret x
      | None => Raise (Exn KeyError key)
      end
  | JsArray _ => Raise (Exn TypeError "list indices must be integers or slices, not str")
  | JsString _ => Raise (Exn TypeError "string indices must be integers, not 'str'")
  | _ => Raise (Exn TypeError "object is not subscriptable")
  end.

(** [float(v)]; [float_of_str] is [float] on a string with a finite
    value, [None] where it raises [ValueError]. *)
Definition to_float (float_of_str : string -> option Q) (v : json) : outcome Q :=
  match v with
  | JsNumber x => Ret x
  | JsBool b => Ret (if b then 1 else 0)
  | JsString s =>
      match float_of_str s with
      | Some x => Ret x
      | None => Raise (Exn ValueError "could not convert string to float")
      end
  | _ => Raise (Exn TypeError "float() argument must be a string or a real number")
  end.

(** The left operand of [v * 0.000621371] and of [v / 3600]. *)
Definition as_number (v : json) : outcome Q :=
  match v with
  | JsNumber x => Ret x
  | JsBool b => Ret (if b then 1 else 0)
  | _ => Raise (Exn TypeError "unsupported operand type(s)")
  end.

(** What a [requests] call gives back: it raises (timeout, connection
    error), or there is a response with a status code and a body that
    [resp.json()] parses or fails on. *)
Inductive parsed : Type :=
| NotJson (e : exn)
| Parsed (v : json).

Inductive reply : Type :=
| NoReply (e : exn)
| Reply (status_code : Z) (body : parsed).

(** [resp.json()] *)
Definition json_of (body : parsed) : outcome json :=
  match body with
  | NotJson e => Raise e
  | Parsed v => Ret v
  end.

(** [resp.raise_for_status()] *)
Definition raise_for_status (status_code : Z) : outcome unit :=
  if (400 <=? status_code)%Z && (status_code <? 600)%Z
  then Raise (Exn RequestException "HTTPError")
  else Ret tt.

(** The [try] block of [geocode]. *)
Definition geocode_attempt (float_of_str : string -> option Q) (answer : reply)
  : outcome (option coord) :=
  match answer with
  | NoReply e => Raise e
  | Reply status_code body =>
      _ <- raise_for_status status_code ;;
      results <- json_of body ;;
      if negb (truth results) then Ret None
      else
        head <- first_item results ;;
        lon_field <- item head "lon" ;;
        lon <- to_float float_of_str lon_field ;;
        head' <- first_item results ;;
        lat_field <- item head' "lat" ;;
        lat <- to_float float_of_str lat_field ;;
        Ret (Some (lon, lat))
  end.

(** [geocode]: [contact] is the value of [CONTACT_EMAIL] in the
    environment ([""] when unset) and [nominatim] the service's answer to
    the search for an address. *)
Definition geocode (float_of_str : string -> option Q) (contact : string)
           (nominatim : string -> reply) (address : string) : outcome (option coord) :=
  match contact with
  | EmptyString =>
      Raise (Exn RuntimeError "CONTACT_EMAIL is not set in your .env file.")
  | _ =>
      try_except (geocode_attempt float_of_str (nominatim address))
                 (fun _ => Ret None)
  end.

(** The dict [get_route] returns; [coords] is handed on as it came. *)
Record route : Type := {
  r_coords : json;
  r_distance_mi : Q;
  r_duration_hrs : Q
}.

Definition meters_to_miles : Q := 621371 # 1000000000.

(** The [try] block of [get_route]. *)
Definition get_route_attempt (answer : reply) : outcome (option route) :=
  match answer with
  | NoReply e => Raise e
  | Reply status_code body =>
      _ <- raise_for_status status_code ;;
      data <- json_of body ;;
      features <- item data "features" ;;
      feature <- first_item features ;;
      geometry <- item feature "geometry" ;;
      coords <- item geometry "coordinates" ;;
      properties <- item feature "properties" ;;
      props <- item properties "summary" ;;
      dist_m <- item props "distance" ;;
      dur_s <- item props "duration" ;;
      distance <- as_number dist_m ;;
      duration <- as_number dur_s ;;
      Ret (Some {| r_coords := coords;
                   r_distance_mi := distance * meters_to_miles;
                   r_duration_hrs := duration / 3600 |})
  end.

(** [get_route]: [directions] is the routing service's answer for the
    two end points and the key. Both [except] clauses return [None]. *)
Definition get_route (directions : coord -> coord -> string -> reply)
           (start end_ : coord) (api_key : string) : outcome (option route) :=
  try_except (get_route_attempt (directions start end_ api_key))
             (fun _ => Ret None).

(** A Nominatim answer with one hit, and an OpenRouteService answer with
    one feature, for examples. *)
Definition one_hit : json :=
  JsArray [JsObject [("lat"%string, JsString "47.6"); ("lon"%string, JsString "-122.3")]].

Definition one_feature : json :=
  JsObject
    [("features"%string,
      JsArray
        [JsObject
           [("geometry"%string,
             JsObject [("coordinates"%string,
                        JsArray [JsArray [JsNumber 0; JsNumber 0];
                                 JsArray [JsNumber 1; JsNumber 0]])]);
            ("properties"%string,
             JsObject [("summary"%string,
                        JsObject [("distance"%string, JsNumber 111195);
                                  ("duration"%string, JsNumber 7200)])])]])].

(** [float] on the two coordinate strings of [one_hit]; every other
    string is rejected by this stand-in. *)
Definition demo_float (s : string) : option Q :=
  if String.eqb s "47.6" then Some (476 # 10)
  else if String.eqb s "-122.3" then Some (- (1223 # 10))
  else None.

(** A path into a document: keys and "first item" steps, followed from
    the left as chained subscripts are. *)
Inductive step : Type :=
| Key (name : string)
| First.

Fixpoint follow (v : json) (path : list step) : outcome json :=
  match path with
  | [] => Ret v
  | Key name :: rest => x <- item v name ;; follow x rest
  | First :: rest => x <- first_item v ;; follow x rest
  end.

End Services.

(* ================================================================== *)
(** ** app.py: marker colours *)
(* ================================================================== *)

Module Presentation.
Import Py Data.

(** The dict literal inside [precip_dot_color]. *)
Definition precip_colors : list (string * string) :=
  [ ("thunderstorm",  "purple");
    ("freezing_rain", "orange");
    ("snow",          "blue_snow");
    ("snow_showers",  "blue_snow");
    ("sleet",         "orange");
    ("showers",       "yellow");
    ("rain",          "yellow");
    ("fog",           "gray") ]%string.

(** [weather] is [None] when the waypoint has no ["weather"] key. *)
Definition precip_dot_color (weather : option weather_record) : string :=
  match weather with
  | None => "blue"
  | Some w =>
      if negb (available w) then "blue"
      else if wind_warning w then "red"
      else
        let fallback := if Qle_bool (cloud_pct w) 75 then "green"%string else "gray"%string in
        match precip_type w with
        | Some pt =>
            match sdict_get precip_colors pt with
            | Some colour => colour
            | None => fallback
            end
        | None => fallback
        end
  end.

Definition FILL_COLORS : list (string * string) :=
  [ ("green",     "#2ECC71");
    ("gray",      "#95A5A6");
    ("orange",    "#E67E22");
    ("yellow",    "#F4D03F");
    ("red",       "#E74C3C");
    ("purple",    "#9B59B6");
    ("blue_snow", "#5DADE2");
    ("blue",      "#3498DB") ]%string.

(** [FILL_COLORS.get(color, "#3498DB")] in [build_map]. *)
Definition fill_color (weather : option weather_record) : string :=
  match sdict_get FILL_COLORS (precip_dot_color weather) with
  | Some hex => hex
  | None => "#3498DB"
  end.

(** The text shown when the popup of a waypoint has no forecast:
    [weather.get("reason", "Unavailable") if weather else "Unavailable"]. *)
Definition popup_reason (weather : option weather_record) : string :=
  match weather with
  | Some w =>
      match reason w with
      | Some text => text
      | None => "Unavailable"
      end
  | None => "Unavailable"
  end.

End Presentation.

(* ================================================================== *)
(** ** Notions used to state further properties *)
(* ================================================================== *)

Module Notions.
Import Py Data Routing Weather.





(** The closed set of precipitation-type tags. *)
Definition taxonomy : list string :=
  [ "rain"; "showers"; "freezing_rain"; "snow"; "snow_showers";
    "sleet"; "thunderstorm"; "fog" ]%string.

(** Null, or one of the tags. *)
Definition tagged (p : option string) : Prop :=
  p = None \/ exists tag, p = Some tag /\ In tag taxonomy.

(** The array under [key] gives nothing usable at [best_idx]: the key is
    absent, the array is too short, or the element is null or cannot be
    converted. *)
Definition unusable (hourly : hourly_data) (best_idx : nat) (key : string) : Prop :=
  match element hourly best_idx key with
  | Some (JNum _) => False
  | _ => True
  end.

(** The record built when no array gives anything usable. *)
Definition default_record (wind_warning_mph : Q) : weather_record :=
  {| available := true;
     reason := None;
     temp_f := None;
     precip_in_hr := round 0 4;
     rain_in_hr := round 0 4;
     showers_in_hr := round 0 4;
     snowfall_in_hr := round (0 * (393701 # 1000000)) 4;
     cloud_pct := round 0 1;
     wind_mph := round 0 1;
     wind_dir := "N";
     vis_mi := round (qmin (16000 / (160934 # 100)) 99) 1;
     wind_warning := Qle_bool wind_warning_mph 0;
     precip_type_code := None;
     weather_code := None;
     condition := Some "Unknown"%string;
     precip_type := None |}.

(** The eleven arrays [_fetch_one] reads. *)
Definition hourly_keys : list string :=
  [ "temperature_2m"; "precipitation"; "rain"; "showers"; "snowfall";
    "precipitation_type"; "weather_code"; "cloud_cover"; "wind_speed_10m";
    "wind_direction_10m"; "visibility" ]%string.

End Notions.

(* ================================================================== *)
(** ** Properties *)
(* ================================================================== *)

Module PyFacts.
Import Py.

Lemma round_half_even_comp (x y : Q) : x == y -> round_half_even x = round_half_even y.
Proof.
  intros E. unfold round_half_even.
  rewrite (Qfloor_comp x y E).
  assert (C : Qcompare (x - inject_Z (Qfloor y)) (1 # 2)
              = Qcompare (y - inject_Z (Qfloor y)) (1 # 2)).
  { apply Qcompare_comp; [rewrite E; reflexivity | reflexivity]. }
  rewrite C. reflexivity.
Qed.

(** The rounded integer is within one half of the argument. *)
Lemma round_half_even_near (x : Q) :
  inject_Z (round_half_even x) - (1 # 2) <= x /\ x <= inject_Z (round_half_even x) + (1 # 2).
Proof.
  unfold round_half_even.
  pose proof (Qfloor_le x) as Hlo. pose proof (Qlt_floor x) as Hhi.
  rewrite inject_Z_plus in Hhi. change (inject_Z 1) with 1 in Hhi.
  destruct (Qcompare (x - inject_Z (Qfloor x)) (1 # 2)) eqn:C.
  - apply Qeq_alt in C.
    destruct (Z.even (Qfloor x)); [| rewrite inject_Z_plus; change (inject_Z 1) with 1]; lra.
  - apply Qlt_alt in C. lra.
  - apply Qgt_alt in C. rewrite inject_Z_plus. change (inject_Z 1) with 1. lra.
Qed.

Lemma inject_Z_le_1 (a b : Z) : inject_Z a < inject_Z b + 1 -> (a <= b)%Z.
Proof.
  intros H. change (inject_Z b + 1) with (inject_Z b + inject_Z 1) in H.
  rewrite <- inject_Z_plus in H. rewrite <- Zlt_Qlt in H. lia.
Qed.

Lemma round_half_even_mono (x y : Q) : x <= y -> (round_half_even x <= round_half_even y)%Z.
Proof.
  intros Hxy.
  destruct (Z_le_gt_dec (round_half_even x) (round_half_even y)) as [|G]; [assumption|].
  exfalso.
  destruct (round_half_even_near x) as [Lx _].
  destruct (round_half_even_near y) as [_ Uy].
  assert (G' : inject_Z (round_half_even y) + 1 <= inject_Z (round_half_even x)).
  { change (inject_Z (round_half_even y) + 1)
      with (inject_Z (round_half_even y) + inject_Z 1).
    rewrite <- inject_Z_plus. rewrite <- Zle_Qle. lia. }
  assert (E : x == y) by lra.
  apply round_half_even_comp in E. lia.
Qed.

Lemma pow10_pos (n : nat) : 0 < pow10 n.
Proof.
  unfold pow10. change 0 with (inject_Z 0). rewrite <- Zlt_Qlt.
  apply Z.pow_pos_nonneg; lia.
Qed.

Lemma round_mono (x y : Q) (n : nat) : x <= y -> round x n <= round y n.
Proof.
  intros Hxy. unfold round.
  pose proof (pow10_pos n) as P.
  apply Qmult_le_compat_r.
  - rewrite <- Zle_Qle. apply round_half_even_mono.
    apply Qmult_le_compat_r; [assumption | lra].
  - apply Qlt_le_weak. apply Qinv_lt_0_compat. assumption.
Qed.

Lemma round_comp (x y : Q) (n : nat) : x == y -> round x n = round y n.
Proof.
  intros E. unfold round. f_equal. f_equal. apply round_half_even_comp.
  rewrite E. reflexivity.
Qed.


End PyFacts.

Module RoutingFacts.
Import Py Data Routing PyFacts.

Lemma target_0 (i : Q) : target i 0 == 0.
Proof. unfold target. simpl. ring. Qed.

Lemma target_S (i : Q) (k : nat) : target i (S k) == target i k + i.
Proof.
  unfold target. rewrite Nat2Z.inj_succ. unfold Z.succ.
  rewrite inject_Z_plus. change (inject_Z 1) with 1. ring.
Qed.

Lemma checkpoint_label_comp (idx : Z) (x y : Q) :
  x == y -> checkpoint_label idx x = checkpoint_label idx y.
Proof.
  intros E. unfold checkpoint_label. rewrite (round_half_even_comp x y E). reflexivity.
Qed.

Lemma Qle_bool_false (x y : Q) : Qle_bool x y = false -> y < x.
Proof.
  intros H. destruct (Qlt_le_dec y x) as [L | L]; [assumption |].
  apply Qle_bool_iff in L. congruence.
Qed.

Lemma Qeq_bool_false (x y : Q) : ~ x == y -> Qeq_bool x y = false.
Proof.
  intros N. destruct (Qeq_bool x y) eqn:E; [| reflexivity].
  apply Qeq_bool_eq in E. contradiction.
Qed.

(** The quotient of a length by a positive step, located between two
    consecutive multiples. *)
Lemma floor_between (L i : Q) (k : nat) :
  0 < i -> target i k <= L -> L < target i (S k) -> Qfloor (L / i) = Z.of_nat k.
Proof.
  intros Hi Hlo Hhi. rewrite target_S in Hhi. unfold target in *.
  set (z := Z.of_nat k) in *.
  set (q := L / i).
  assert (EL : L == q * i) by (unfold q; field; lra).
  pose proof (Qfloor_le q) as F1. pose proof (Qlt_floor q) as F2.
  rewrite inject_Z_plus in F2. change (inject_Z 1) with 1 in F2.
  assert (A : inject_Z z <= q) by nra.
  assert (B : q < inject_Z z + 1) by nra.
  assert (C1 : inject_Z z < inject_Z (Qfloor q) + 1) by lra.
  assert (C2 : inject_Z (Qfloor q) < inject_Z z + 1) by lra.
  apply inject_Z_le_1 in C1. apply inject_Z_le_1 in C2. lia.
Qed.

Lemma archimedes (x i : Q) : 0 < i -> exists n : nat, x < target i n.
Proof.
  intros Hi. exists (Z.to_nat (Z.max 0 (Qfloor (x / i) + 1))).
  unfold target. rewrite Z2Nat.id by lia.
  pose proof (Qlt_floor (x / i)) as F.
  assert (EL : x == (x / i) * i) by (field; lra).
  assert (M : inject_Z (Qfloor (x / i) + 1) <= inject_Z (Z.max 0 (Qfloor (x / i) + 1)))
    by (rewrite <- Zle_Qle; lia).
  nra.
Qed.

Section Sampler.
Context `{G : Geodesy}.
Variable interval_mi : Q.
Hypothesis interval_pos : 0 < interval_mi.

Lemma sampler_inv_weaken (a b : Q) (st : sampler) :
  a <= b -> sampler_inv interval_mi a st -> sampler_inv interval_mi b st.
Proof.
  unfold sampler_inv. intros Hab (H1 & H2 & H3 & H4).
  split; [assumption | split; [assumption | split; [lra | assumption]]].
Qed.

Lemma while_target_run (prev cur : coord) (accumulated seg_dist : Q) :
  forall (n : nat) (st : sampler),
    sampler_inv interval_mi (accumulated + seg_dist) st ->
    accumulated < next_target st ->
    accumulated + seg_dist - next_target st < target interval_mi n ->
    exists st',
      (forall fuel, (n < fuel)%nat ->
         while_target fuel prev cur accumulated seg_dist interval_mi st = Ret st')
      /\ sampler_inv interval_mi (accumulated + seg_dist) st'
      /\ accumulated + seg_dist < next_target st'
      /\ exists extra, waypoints st' = waypoints st ++ extra.
Proof.
  induction n as [| n IH]; intros st Inv Hacc Hmeasure.
  - rewrite target_0 in Hmeasure.
    exists st. refine (conj _ (conj Inv (conj _ _))).
    + intros fuel Hf. destruct fuel as [| fuel]; [lia |]. simpl.
      destruct (Qle_bool (next_target st) (accumulated + seg_dist)) eqn:T;
        [apply Qle_bool_iff in T; lra | reflexivity].
    + lra.
    + exists []. rewrite app_nil_r. reflexivity.
  - destruct (Qle_bool (next_target st) (accumulated + seg_dist)) eqn:T.
    + pose proof T as T'. apply Qle_bool_iff in T'.
      assert (Hseg : Qeq_bool seg_dist 0 = false)
        by (apply Qeq_bool_false; intros E; lra).
      destruct Inv as (I1 & I2 & I3 & I4).
      set (k := List.length (waypoints st)) in *.
      set (wp := new_waypoint
                   (fst prev + (fst cur - fst prev) * ((next_target st - accumulated) / seg_dist))
                   (snd prev + (snd cur - snd prev) * ((next_target st - accumulated) / seg_dist))
                   (round (next_target st) 1)
                   (checkpoint_label (wp_index st) (next_target st))).
      set (st1 := {| waypoints := waypoints st ++ [wp];
                     next_target := next_target st + interval_mi;
                     wp_index := (wp_index st + 1)%Z |}).
      assert (Len : List.length (waypoints st1) = S k).
      { unfold st1. simpl. rewrite length_app. simpl. unfold k. lia. }
      destruct (IH st1) as (st' & Run & Inv' & Out & extra & Ext).
      * unfold sampler_inv. rewrite Len. refine (conj _ (conj _ (conj _ _))).
        -- unfold st1; simpl. rewrite (target_S interval_mi (S k)). lra.
        -- unfold st1; simpl. rewrite I2. lia.
        -- lra.
        -- intros j w Hj. unfold st1 in Hj; simpl in Hj.
           destruct (Nat.lt_ge_cases j k) as [Lt | Ge].
           ++ rewrite nth_error_app1 in Hj by exact Lt. apply I4; assumption.
           ++ rewrite nth_error_app2 in Hj by exact Ge. fold k in Hj.
              destruct (j - k)%nat as [| d] eqn:Ej.
              ** simpl in Hj. injection Hj as <-.
                 assert (j = k) by lia. subst j.
                 unfold is_checkpoint, wp; simpl.
                 refine (conj _ (conj _ (conj eq_refl (conj eq_refl eq_refl)))).
                 --- apply round_comp; assumption.
                 --- rewrite I2. apply checkpoint_label_comp; assumption.
              ** simpl in Hj. destruct d; discriminate.
      * unfold st1; simpl. lra.
      * unfold st1; simpl. rewrite target_S in Hmeasure. lra.
      * exists st'. refine (conj _ (conj Inv' (conj Out _))).
        -- intros fuel Hf. destruct fuel as [| fuel]; [lia |].
           simpl. rewrite T, Hseg. apply Run. lia.
        -- exists ([wp] ++ extra). rewrite Ext. unfold st1; simpl.
           rewrite <- app_assoc. reflexivity.
    + exists st. refine (conj _ (conj Inv (conj _ _))).
      * intros fuel Hf. destruct fuel as [| fuel]; [lia |]. simpl. rewrite T. reflexivity.
      * apply Qle_bool_false; assumption.
      * exists []. rewrite app_nil_r. reflexivity.
Qed.

Lemma for_segments_run :
  forall (rest : list coord) (prev : coord) (accumulated : Q) (st : sampler),
    sampler_inv interval_mi accumulated st ->
    accumulated < next_target st ->
    exists n st',
      (forall fuel, (n < fuel)%nat ->
         for_segments fuel rest prev accumulated interval_mi st = Ret st')
      /\ sampler_inv interval_mi (walked accumulated prev rest) st'
      /\ walked accumulated prev rest < next_target st'
      /\ exists extra, waypoints st' = waypoints st ++ extra.
Proof.
  induction rest as [| cur rest IH]; intros prev accumulated st Inv Hacc.
  - exists 0%nat, st. simpl. refine (conj _ (conj Inv (conj Hacc _))).
    + reflexivity.
    + exists []. rewrite app_nil_r. reflexivity.
  - set (seg_dist := haversine_mi (fst prev) (snd prev) (fst cur) (snd cur)).
    pose proof (haversine_nonneg (fst prev) (snd prev) (fst cur) (snd cur)) as Hseg.
    fold seg_dist in Hseg.
    destruct (archimedes (accumulated + seg_dist - next_target st) interval_mi interval_pos)
      as [n Hn].
    destruct (while_target_run prev cur accumulated seg_dist n st)
      as (st1 & Run1 & Inv1 & Out1 & extra1 & Ext1);
      [apply (sampler_inv_weaken accumulated); [lra | assumption] | assumption | assumption |].
    destruct (IH cur (accumulated + seg_dist) st1 Inv1 Out1)
      as (m & st' & Run2 & Inv2 & Out2 & extra2 & Ext2).
    exists (Nat.max n m), st'. simpl. fold seg_dist.
    refine (conj _ (conj Inv2 (conj Out2 _))).
    + intros fuel Hf. rewrite Run1 by lia. simpl. apply Run2. lia.
    + exists (extra1 ++ extra2). rewrite Ext2, Ext1, app_assoc. reflexivity.
Qed.

(** With a positive interval and enough fuel the sampler returns the
    checkpoints for the targets within the geometry's length, then
    the destination. *)
Lemma sample_waypoints_run (first : coord) (rest : list coord) (total_dist_mi : Q) :
  exists n cps,
    (forall fuel, (n < fuel)%nat ->
       sample_waypoints fuel (first :: rest) interval_mi total_dist_mi
       = Ret (cps ++ [destination (first :: rest) total_dist_mi]))
    /\ Z.of_nat (List.length cps) = Qfloor (geometry_length (first :: rest) / interval_mi)
    /\ forall j wp, nth_error cps j = Some wp -> is_checkpoint interval_mi j wp.
Proof.
  set (st0 := {| waypoints := []; next_target := interval_mi; wp_index := 1 |}).
  assert (Inv0 : sampler_inv interval_mi 0 st0).
  { unfold sampler_inv, st0; simpl. refine (conj _ (conj eq_refl (conj _ _))).
    - unfold target. simpl. ring.
    - rewrite target_0. lra.
    - intros j wp Hj. destruct j; discriminate. }
  destruct (for_segments_run rest first 0 st0 Inv0 interval_pos)
    as (n & st' & Run & Inv & Out & extra & Ext).
  simpl in Ext. unfold sampler_inv in Inv. rewrite Ext in Inv.
  exists n, extra. refine (conj _ (conj _ _)).
  - intros fuel Hf. unfold sample_waypoints. fold st0. rewrite (Run fuel Hf).
    unfold bind. rewrite Ext. reflexivity.
  - destruct Inv as (I1 & _ & I3 & _). symmetry.
    apply floor_between; [exact interval_pos | exact I3 |].
    simpl. rewrite <- I1. exact Out.
  - destruct Inv as (_ & _ & _ & I4). exact I4.
Qed.

End Sampler.
End RoutingFacts.

Module RoutingMore.
Import Py Data Routing PyFacts RoutingFacts.

Section Fuel.
Context `{G : Geodesy}.

Lemma while_target_mono (prev cur : coord) (accumulated seg_dist interval_mi : Q) :
  forall (fuel : nat) (st : sampler) (r : outcome sampler),
    while_target fuel prev cur accumulated seg_dist interval_mi st = r ->
    r <> OutOfFuel ->
    forall fuel', (fuel <= fuel')%nat ->
      while_target fuel' prev cur accumulated seg_dist interval_mi st = r.
Proof.
  induction fuel as [| fuel IH]; intros st r Hr Hne fuel' Hle.
  - simpl in Hr. congruence.
  - destruct fuel' as [| fuel']; [lia |].
    simpl in *.
    destruct (Qle_bool (next_target st) (accumulated + seg_dist)); [| assumption].
    destruct (Qeq_bool seg_dist 0); [assumption |].
    apply (IH _ _ Hr Hne). lia.
Qed.

Lemma for_segments_mono (interval_mi : Q) :
  forall (rest : list coord) (fuel : nat) (prev : coord) (accumulated : Q)
         (st : sampler) (r : outcome sampler),
    for_segments fuel rest prev accumulated interval_mi st = r ->
    r <> OutOfFuel ->
    forall fuel', (fuel <= fuel')%nat ->
      for_segments fuel' rest prev accumulated interval_mi st = r.
Proof.
  induction rest as [| cur rest IH]; intros fuel prev accumulated st r Hr Hne fuel' Hle.
  - simpl in *. assumption.
  - simpl in *.
    destruct (while_target fuel prev cur accumulated
                (haversine_mi (fst prev) (snd prev) (fst cur) (snd cur)) interval_mi st)
      as [st1 | e |] eqn:W; simpl in Hr.
    + rewrite (while_target_mono _ _ _ _ _ _ _ _ W) by (try discriminate; lia).
      simpl. apply (IH _ _ _ _ _ Hr Hne). lia.
    + rewrite (while_target_mono _ _ _ _ _ _ _ _ W) by (try discriminate; lia).
      simpl. assumption.
    + congruence.
Qed.

Lemma sample_waypoints_mono (coords : list coord) (interval_mi total_dist_mi : Q) :
  forall (fuel : nat) (r : outcome (list waypoint)),
    sample_waypoints fuel coords interval_mi total_dist_mi = r ->
    r <> OutOfFuel ->
    forall fuel', (fuel <= fuel')%nat ->
      sample_waypoints fuel' coords interval_mi total_dist_mi = r.
Proof.
  intros fuel r Hr Hne fuel' Hle. unfold sample_waypoints in *.
  destruct coords as [| first rest]; [assumption |].
  destruct (for_segments fuel rest first 0 interval_mi
              {| waypoints := []; next_target := interval_mi; wp_index := 1 |})
    as [st | e |] eqn:F; simpl in Hr.
  - rewrite (for_segments_mono _ _ _ _ _ _ _ F) by (try discriminate; lia).
    simpl. assumption.
  - rewrite (for_segments_mono _ _ _ _ _ _ _ F) by (try discriminate; lia).
    simpl. assumption.
  - congruence.
Qed.

(** Zero-length segments never start the inner loop once the next
    target is ahead of the distance walked. *)
Lemma for_segments_zero (interval_mi : Q) :
  forall (rest : list coord) (fuel : nat) (prev : coord) (accumulated : Q) (st : sampler),
    segments_all_zero prev rest ->
    accumulated < next_target st ->
    for_segments (S fuel) rest prev accumulated interval_mi st = Ret st.
Proof.
  induction rest as [| cur rest IH]; intros fuel prev accumulated st Hz Hacc.
  - reflexivity.
  - destruct Hz as [Z0 Zrest]. simpl.
    set (seg_dist := haversine_mi (fst prev) (snd prev) (fst cur) (snd cur)) in *.
    destruct (Qle_bool (next_target st) (accumulated + seg_dist)) eqn:T.
    + apply Qle_bool_iff in T. lra.
    + simpl. apply IH; [assumption | lra].
Qed.

(** With a non-positive interval the loop test stays true. *)
Lemma while_target_diverges (prev cur : coord) (accumulated seg_dist interval_mi : Q) :
  interval_mi <= 0 -> ~ seg_dist == 0 ->
  forall (fuel : nat) (st : sampler),
    next_target st <= accumulated + seg_dist ->
    while_target fuel prev cur accumulated seg_dist interval_mi st = OutOfFuel.
Proof.
  intros Hi Hseg. induction fuel as [| fuel IH]; intros st Hle.
  - reflexivity.
  - simpl.
    assert (T : Qle_bool (next_target st) (accumulated + seg_dist) = true)
      by (apply Qle_bool_iff; assumption).
    rewrite T, (Qeq_bool_false _ _ Hseg).
    apply IH. simpl. lra.
Qed.

(** On a geometry of two or more points a non-positive interval never
    lets the sampler return: the first segment either divides by its
    zero length or keeps appending. *)
Lemma sample_waypoints_nonpositive (first second : coord) (rest : list coord)
      (interval_mi total_dist_mi : Q) (fuel : nat) :
  interval_mi <= 0 ->
  sample_waypoints (S fuel) (first :: second :: rest) interval_mi total_dist_mi
  = (if Qeq_bool (haversine_mi (fst first) (snd first) (fst second) (snd second)) 0
     then Raise (Exn ZeroDivisionError "float division by zero")
     else OutOfFuel).
Proof.
  intros Hi. unfold sample_waypoints. cbn [for_segments].
  set (seg_dist := haversine_mi (fst first) (snd first) (fst second) (snd second)).
  pose proof (haversine_nonneg (fst first) (snd first) (fst second) (snd second)) as Hnn.
  fold seg_dist in Hnn.
  destruct (Qeq_bool seg_dist 0) eqn:E.
  - assert (T : Qle_bool interval_mi (0 + seg_dist) = true)
      by (apply Qle_bool_iff; apply Qeq_bool_eq in E; lra).
    cbn [while_target next_target]. rewrite T, E. reflexivity.
  - apply Qeq_bool_neq in E.
    rewrite (while_target_diverges first second 0 seg_dist interval_mi Hi E);
      [reflexivity | simpl; lra].
Qed.

End Fuel.
End RoutingMore.

Module RoutingClaims.
Import Py Data Routing PyFacts RoutingFacts RoutingMore Reference.

Lemma target_lt_S (i : Q) (k : nat) : 0 < i -> target i k < target i (S k).
Proof. intros Hi. rewrite target_S. lra. Qed.

Lemma target_mono (i : Q) (j k : nat) : 0 < i -> (j <= k)%nat -> target i j <= target i k.
Proof.
  intros Hi Hjk. induction Hjk as [| k _ IH]; [lra |].
  pose proof (target_lt_S i k Hi). lra.
Qed.

Lemma miles_sorted_steps (l : list waypoint) :
  (forall j a b, nth_error l j = Some a -> nth_error l (S j) = Some b -> mile a <= mile b) ->
  miles_sorted l.
Proof.
  induction l as [| a l IH]; intros Hstep; [exact I |].
  destruct l as [| b l]; [exact I |].
  split.
  - apply (Hstep 0%nat); reflexivity.
  - apply IH. intros j x y Hx Hy. apply (Hstep (S j)); assumption.
Qed.

Lemma checkpoints_sorted (interval_mi : Q) (cps : list waypoint) :
  0 < interval_mi ->
  (forall j wp, nth_error cps j = Some wp -> is_checkpoint interval_mi j wp) ->
  miles_sorted cps.
Proof.
  intros Hi Hcp. apply miles_sorted_steps. intros j a b Ha Hb.
  destruct (Hcp _ _ Ha) as [Ma _]. destruct (Hcp _ _ Hb) as [Mb _].
  rewrite Ma, Mb. apply round_mono. apply target_mono; [assumption | lia].
Qed.

Lemma with_destination_sorted (interval_mi total_dist_mi : Q)
      (cps : list waypoint) (dest : waypoint) :
  0 < interval_mi ->
  (forall j wp, nth_error cps j = Some wp -> is_checkpoint interval_mi j wp) ->
  mile dest = round total_dist_mi 1 ->
  target interval_mi (List.length cps) <= total_dist_mi ->
  miles_sorted (cps ++ [dest]).
Proof.
  intros Hi Hcp Hd Hlast. apply miles_sorted_steps. intros j a b Ha Hb.
  assert (Lb : (S j < List.length (cps ++ [dest]))%nat)
    by (apply nth_error_Some; congruence).
  rewrite length_app in Lb. simpl in Lb.
  rewrite nth_error_app1 in Ha by lia.
  destruct (Hcp _ _ Ha) as [Ma _]. rewrite Ma.
  destruct (Nat.eq_dec (S j) (List.length cps)) as [E | N].
  - rewrite nth_error_app2 in Hb by lia.
    replace (S j - List.length cps)%nat with 0%nat in Hb by lia.
    simpl in Hb. injection Hb as <-. rewrite Hd, E.
    apply round_mono. assumption.
  - rewrite nth_error_app1 in Hb by lia.
    destruct (Hcp _ _ Hb) as [Mb _]. rewrite Mb.
    apply round_mono. apply target_mono; [assumption | lia].
Qed.

Lemma destination_mile (coords : list coord) (total_dist_mi : Q) :
  mile (destination coords total_dist_mi) = round total_dist_mi 1.
Proof.
  unfold destination. destruct coords as [| first rest].
  - reflexivity.
  - unfold destination_waypoint. destruct (last (first :: rest) first). reflexivity.
Qed.

Lemma walked_zero `{G : Geodesy} :
  forall (rest : list coord) (prev : coord) (accumulated : Q),
    segments_all_zero prev rest -> walked accumulated prev rest == accumulated.
Proof.
  induction rest as [| cur rest IH]; intros prev accumulated Hz; simpl.
  - reflexivity.
  - destruct Hz as [Z0 Zrest]. rewrite (IH _ _ Zrest). lra.
Qed.

Lemma repeated_point_zero `{G : Geodesy} (p : coord) :
  forall copies, segments_all_zero p (repeat p copies).
Proof.
  induction copies as [| copies IH]; simpl; [exact I |].
  split; [apply haversine_same | exact IH].
Qed.




(** C4 as stated fails on both counts.  The stored distance of the
    destination is the total rounded to one decimal, so a total of
    120.04 is stored as 120.0; and the total is an argument of its own,
    so a total of 10 after a checkpoint at mile 50 makes the stored
    distances go down (the segment from (0,0) to (1,0) measures 69 miles
    under [grid] and about 69.09 under the haversine formula: one
    checkpoint either way). *)
Lemma stored_miles_counterexample :
  (exists wps,
     sample_waypoints 1 [(0, 0); (0, 0)] 50 (12004 # 100) = Ret wps
     /\ ~ mile (last wps (destination [] 0)) == 12004 # 100)
  /\ (exists wps,
        sample_waypoints 2 [(0, 0); (1, 0)] 50 10 = Ret wps
        /\ ~ miles_sorted wps).
Proof.
  split.
  - eexists. split; [reflexivity |]. vm_compute. discriminate.
  - eexists. split; [reflexivity |]. simpl. intros [H _]. vm_compute in H. apply H. reflexivity.
Qed.

(** C4, amended: with a positive interval the stored distances of the
    interval waypoints are non-decreasing, the destination's stored
    distance is [round(total_dist_mi, 1)], and the whole sequence is
    non-decreasing whenever the total is not below the last target met,
    in particular whenever it is not below the summed segment length. *)
Theorem sampler_stored_miles `{G : Geodesy}
        (first : coord) (rest : list coord) (interval_mi total_dist_mi : Q) :
  0 < interval_mi ->
  exists n cps,
    (forall fuel, (n < fuel)%nat ->
       sample_waypoints fuel (first :: rest) interval_mi total_dist_mi
       = Ret (cps ++ [destination (first :: rest) total_dist_mi]))
    /\ miles_sorted cps
    /\ mile (destination (first :: rest) total_dist_mi) = round total_dist_mi 1
    /\ (target interval_mi (List.length cps) <= total_dist_mi ->
        miles_sorted (cps ++ [destination (first :: rest) total_dist_mi]))
    /\ (geometry_length (first :: rest) <= total_dist_mi ->
        miles_sorted (cps ++ [destination (first :: rest) total_dist_mi])).
Proof.
  intros Hi.
  destruct (sample_waypoints_run interval_mi Hi first rest total_dist_mi)
    as (n & cps & Run & Count & Cps).
  exists n, cps.
  assert (Sorted : target interval_mi (List.length cps) <= total_dist_mi ->
                   miles_sorted (cps ++ [destination (first :: rest) total_dist_mi])).
  { intros Hlast.
    apply (with_destination_sorted interval_mi total_dist_mi); try assumption.
    apply destination_mile. }
  refine (conj Run (conj _ (conj _ (conj Sorted _)))).
  - apply (checkpoints_sorted interval_mi); assumption.
  - apply destination_mile.
  - intros Hlen. apply Sorted.
    set (L := geometry_length (first :: rest)) in *.
    pose proof (Qfloor_le (L / interval_mi)) as F. rewrite <- Count in F.
    assert (EL : L == (L / interval_mi) * interval_mi) by (field; lra).
    unfold target. nra.
Qed.

Lemma sampler_stored_miles_witness :
  exists n cps,
    (forall fuel, (n < fuel)%nat ->
       sample_waypoints fuel [(0, 0); (120 # 69, 0)] 50 120
       = Ret (cps ++ [destination [(0, 0); (120 # 69, 0)] 120]))
    /\ miles_sorted (cps ++ [destination [(0, 0); (120 # 69, 0)] 120]).
Proof.
  destruct (sampler_stored_miles (0, 0) [(120 # 69, 0)] 50 120)
    as (n & cps & Run & _ & _ & _ & Sorted); [reflexivity |].
  exists n, cps. split; [exact Run |]. apply Sorted. vm_compute. discriminate.
Defined.

(** C7: on a geometry of two or more points and with a positive
    interval the sampler never raises, for any amount of fuel (so the
    division by the segment length is never reached with a zero
    length); it returns once the fuel suffices; and when every segment
    has length zero, as on a geometry that repeats one point, it returns
    the destination waypoint alone. *)
Theorem sampler_tolerates_zero_segments `{G : Geodesy}
        (first second : coord) (rest : list coord) (interval_mi total_dist_mi : Q) :
  0 < interval_mi ->
  (forall fuel e,
     sample_waypoints fuel (first :: second :: rest) interval_mi total_dist_mi <> Raise e)
  /\ (exists n, forall fuel, (n < fuel)%nat ->
        returns (sample_waypoints fuel (first :: second :: rest) interval_mi total_dist_mi))
  /\ (segments_all_zero first (second :: rest) ->
      forall fuel,
        sample_waypoints (S fuel) (first :: second :: rest) interval_mi total_dist_mi
        = Ret [destination (first :: second :: rest) total_dist_mi])
  /\ (forall copies fuel,
         sample_waypoints (S fuel) (first :: first :: repeat first copies)
                          interval_mi total_dist_mi
         = Ret [destination (first :: first :: repeat first copies) total_dist_mi]).
Proof.
  intros Hi.
  destruct (sample_waypoints_run interval_mi Hi first (second :: rest) total_dist_mi)
    as (n & cps & Run & _ & _).
  refine (conj _ (conj _ (conj _ _))); cycle 3.
  { intros copies fuel. unfold sample_waypoints.
    rewrite (for_segments_zero interval_mi);
      [reflexivity | apply (repeated_point_zero first (S copies)) | simpl; lra]. }
  - intros fuel e Hraise.
    pose proof (sample_waypoints_mono _ _ _ _ _ Hraise) as Mono.
    specialize (Mono ltac:(discriminate) (Nat.max fuel (S n)) (Nat.le_max_l _ _)).
    rewrite (Run (Nat.max fuel (S n))) in Mono by lia. discriminate.
  - exists n. intros fuel Hf. eexists. apply Run. assumption.
  - intros Hz fuel. unfold sample_waypoints.
    rewrite (for_segments_zero interval_mi) by (try assumption; simpl; lra).
    reflexivity.
Qed.

Lemma sampler_tolerates_zero_segments_witness :
  sample_waypoints 1 [(3, 4); (3, 4); (3, 4)] 50 120
  = Ret [destination [(3, 4); (3, 4); (3, 4)] 120].
Proof.
  destruct (sampler_tolerates_zero_segments (3, 4) (3, 4) [(3, 4)] 50 120)
    as (_ & _ & Zero & _); [reflexivity |].
  apply Zero. simpl. repeat split; reflexivity.
Defined.

End RoutingClaims.

Module PlanClaims.
Import Py Data Routing Weather App Reference PyFacts RoutingFacts RoutingMore.


Lemma estimate_arrival_times_zero_speed `{L : Lib} (departure_dt : datetime)
      (wp : waypoint) (rest : list waypoint) :
  estimate_arrival_times (wp :: rest) departure_dt 0
  = Raise (Exn ZeroDivisionError "float division by zero").
Proof. reflexivity. Qed.



(** The handler goes from the form to the sampler without looking at
    the interval or the speed. *)
Lemma plan_reaches_sampler (fuel : nat) (interval_mi : Z) (speed : Q) :
  plan "key" 40 fuel (sample_request interval_mi speed)
  = (sampled <- sample_waypoints fuel [(0, 0); (120 # 69, 0)] (inject_Z interval_mi) 120 ;;
     timed <- estimate_arrival_times sampled
                {| wall_us := 1704096000000000; utcoffset := None |} speed ;;
     annotated <- fetch_weather_for_waypoints timed (inject_Z 40) forecast
                    (completion (List.length timed)) ;;
     Ret (ResultPage annotated (round 120 1) 2)).
Proof. reflexivity. Qed.

(** C3 fails on the code: [plan] validates the two addresses and the
    departure string only.  A request with interval 0 or -5 (and valid
    text fields) is not rejected; it reaches [sample_waypoints], whose
    inner loop then never ends, for any amount of fuel.  A request with
    speed 0 is not rejected either; it runs the sampler and then raises
    [ZeroDivisionError] in the estimator. *)
Theorem plan_runs_on_nonpositive_input :
  validation_errors (strip " Origin ") (strip "Destination") (strip "2024-01-01T08:00") = []
  /\ (forall fuel, plan "key" 40 fuel (sample_request 0 60) = OutOfFuel)
  /\ (forall fuel, plan "key" 40 fuel (sample_request (-5) 60) = OutOfFuel)
  /\ (forall fuel, plan "key" 40 (3 + fuel) (sample_request 50 0)
                   = Raise (Exn ZeroDivisionError "float division by zero")).
Proof.
  assert (Loop : forall fuel interval_mi,
             (interval_mi <= 0)%Z ->
             plan "key" 40 fuel (sample_request interval_mi 60) = OutOfFuel).
  { intros fuel interval_mi Hi. rewrite plan_reaches_sampler.
    destruct fuel as [| fuel]; [reflexivity |].
    rewrite sample_waypoints_nonpositive.
    - reflexivity.
    - change 0 with (inject_Z 0). rewrite <- Zle_Qle. assumption. }
  refine (conj eq_refl (conj _ (conj _ _))).
  - intros fuel. apply Loop. lia.
  - intros fuel. apply Loop. lia.
  - intros fuel. rewrite plan_reaches_sampler.
    destruct (sample_waypoints_run 50 eq_refl (0, 0) [(120 # 69, 0)] 120)
      as (n & cps & Run & Count & _).
    assert (Enough : sample_waypoints (3 + fuel) [(0, 0); (120 # 69, 0)] (inject_Z 50) 120
                     = Ret (cps ++ [destination [(0, 0); (120 # 69, 0)] 120])).
    { apply (sample_waypoints_mono _ _ _ 3%nat); [| discriminate | lia].
      assert (At3 : exists r, sample_waypoints 3 [(0, 0); (120 # 69, 0)] (inject_Z 50) 120
                              = Ret r) by (eexists; reflexivity).
      destruct At3 as [r At3]. rewrite At3.
      pose proof (sample_waypoints_mono _ _ _ _ _ At3 ltac:(discriminate)
                    (Nat.max 3 (S n)) (Nat.le_max_l _ _)) as Up.
      rewrite Run in Up by lia. symmetry. exact Up. }
    rewrite Enough. cbn [bind].
    destruct cps as [| cp cps]; reflexivity.
Qed.

(** Whatever the world, a request whose text fields pass validation,
    whose addresses are found and whose route has two or more points is
    never answered when the interval is not positive: the sampler
    divides by a zero-length first segment or keeps looping. *)
Lemma plan_nonpositive_interval_general `{L : Lib} `{G : Geodesy} `{W : World}
      (key : string) (wind : Z) (fuel : nat) (request : form)
      (departure_dt : datetime) (sc ec first second : coord) (rest : list coord)
      (route : route_data) :
  validation_errors (strip (start request)) (strip (end_ request))
                    (strip (departure request)) = [] ->
  fromisoformat (strip (departure request)) = Some departure_dt ->
  geocode (strip (start request)) = Ret (Some sc) ->
  geocode (strip (end_ request)) = Ret (Some ec) ->
  get_route sc ec key = Some route ->
  coords route = first :: second :: rest ->
  (interval request <= 0)%Z ->
  ~ returns (plan key wind fuel request).
Proof.
  intros Valid Parse Gs Ge Route Coords Hi [page Hpage].
  unfold plan in Hpage. rewrite Valid, Parse, Gs, Ge in Hpage. cbn [bind] in Hpage.
  rewrite Route, Coords in Hpage.
  destruct fuel as [| fuel]; [discriminate |].
  rewrite sample_waypoints_nonpositive in Hpage
    by (change 0 with (inject_Z 0); rewrite <- Zle_Qle; assumption).
  destruct (Qeq_bool _ 0); discriminate.
Qed.

End PlanClaims.

Module DecoderFacts.
Import Py Data Weather Reference.

Section Decoder.
Context `{L : Lib}.

(** An integer code decodes by table lookup, with the placeholder
    label for a code outside the table. *)
Lemma decode_of_int (c : Z) :
  decode_precipitation_type (PyInt c)
  = Ret match zdict_get _PRECIP_TYPE_MAP c with
        | Some (precip_type, label) =>
            {| d_precip_type := precip_type; d_label := label |}
        | None =>
            {| d_precip_type := None; d_label := ("Type " ++ show_Z c)%string |}
        end.
Proof.
  unfold decode_precipitation_type. cbn [int_of].
  destruct (zdict_get _PRECIP_TYPE_MAP c) as [[pt lb] |]; reflexivity.
Qed.

(** Every input except an infinite float makes the decoder return,
    and whatever lies outside the table decodes to a null
    [precip_type]. *)
Lemma decode_returns_unless_infinite (code : pyval) :
  (forall negative, code <> PyFloat (Infinity negative)) ->
  exists d, decode_precipitation_type code = Ret d.
Proof.
  intros Hfin. unfold decode_precipitation_type.
  destruct code as [| b | z | x | s |]; cbn [int_of]; try (eexists; reflexivity).
  - destruct (zdict_get _PRECIP_TYPE_MAP (if b then 1 else 0)%Z) as [[pt lb] |];
      eexists; reflexivity.
  - destruct (zdict_get _PRECIP_TYPE_MAP z) as [[pt lb] |]; eexists; reflexivity.
  - destruct x as [q | | negative].
    + destruct (zdict_get _PRECIP_TYPE_MAP (trunc q)) as [[pt lb] |];
        eexists; reflexivity.
    + eexists; reflexivity.
    + exfalso. apply (Hfin negative). reflexivity.
  - destruct (int_of_str s) as [z |]; cbn [exn_class].
    + destruct (zdict_get _PRECIP_TYPE_MAP z) as [[pt lb] |]; eexists; reflexivity.
    + eexists; reflexivity.
Qed.

Lemma decode_unknown_int (c : Z) :
  zdict_get _PRECIP_TYPE_MAP c = None ->
  decode_precipitation_type (PyInt c)
  = Ret {| d_precip_type := None; d_label := ("Type " ++ show_Z c)%string |}.
Proof. intros Hc. rewrite decode_of_int, Hc. reflexivity. Qed.

Lemma decode_unconvertible :
  decode_precipitation_type PyNone = Ret unknown_code
  /\ decode_precipitation_type PyContainer = Ret unknown_code
  /\ decode_precipitation_type (PyFloat NaN) = Ret unknown_code
  /\ (forall s, int_of_str s = None ->
                decode_precipitation_type (PyStr s) = Ret unknown_code).
Proof.
  repeat split. intros s Hs. unfold decode_precipitation_type. cbn [int_of].
  rewrite Hs. reflexivity.
Qed.

(** C10 fails on the code: [int()] of an infinite float raises
    [OverflowError], which the [except (TypeError, ValueError)] clause of
    [decode_precipitation_type] does not catch, so on that input the
    decoder raises instead of returning the placeholder.  On every other
    input it returns, with the placeholder label and a null [precip_type]
    for an integer outside the table, for [None], for NaN and for a
    container. *)
Theorem decode_raises_on_infinite_code :
  (forall negative,
      decode_precipitation_type (PyFloat (Infinity negative))
      = Raise (Exn OverflowError "cannot convert float infinity to integer"))
  /\ (forall code,
         (forall negative, code <> PyFloat (Infinity negative)) ->
         exists d, decode_precipitation_type code = Ret d)
  /\ (forall c,
         zdict_get _PRECIP_TYPE_MAP c = None ->
         decode_precipitation_type (PyInt c)
         = Ret {| d_precip_type := None; d_label := ("Type " ++ show_Z c)%string |})
  /\ decode_precipitation_type PyNone = Ret unknown_code
  /\ decode_precipitation_type (PyFloat NaN) = Ret unknown_code
  /\ decode_precipitation_type PyContainer = Ret unknown_code.
Proof.
  refine (conj _ (conj _ (conj _ (conj _ (conj _ _))))).
  - intros negative. reflexivity.
  - apply decode_returns_unless_infinite.
  - apply decode_unknown_int.
  - apply decode_unconvertible.
  - apply decode_unconvertible.
  - apply decode_unconvertible.
Qed.

(** C5: in the two-stage decode a WMO code mapped to fog or
    thunderstorm replaces the primary result whatever it was; one
    mapped to showers or snow showers is taken when, and only when,
    the primary [precip_type] is null; a non-null primary
    [precip_type] survives every WMO code not mapped to fog or
    thunderstorm (and a missing WMO code); primary code 5 then gives
    ["snow"], and primary code 0 with WMO code 95 gives
    ["thunderstorm"]. *)
Theorem two_stage_decode_precedence :
  (forall pt w kind,
      zdict_get _WMO_PRECIP_TYPE w = Some kind ->
      kind = "fog"%string \/ kind = "thunderstorm"%string ->
      fst (refine_with_wmo pt (Some w)) = Some kind)
  /\ (forall pt w kind,
         zdict_get _WMO_PRECIP_TYPE w = Some kind ->
         kind = "showers"%string \/ kind = "snow_showers"%string ->
         (d_precip_type pt = None -> fst (refine_with_wmo pt (Some w)) = Some kind)
         /\ (forall p, d_precip_type pt = Some p ->
                       fst (refine_with_wmo pt (Some w)) = Some p))
  /\ (forall pt wmo p,
         d_precip_type pt = Some p ->
         match wmo with
         | Some w => fog_or_thunderstorm (zdict_get _WMO_PRECIP_TYPE w) = false
         | None => True
         end ->
         fst (refine_with_wmo pt wmo) = Some p)
  /\ (forall wmo code,
         match wmo with
         | Some w => fog_or_thunderstorm (zdict_get _WMO_PRECIP_TYPE w) = false
         | None => True
         end ->
         code = PyInt 5 \/ code = PyFloat (Finite 5) ->
         exists pt, decode_precipitation_type code = Ret pt
                    /\ fst (refine_with_wmo pt wmo) = Some "snow"%string)
  /\ (forall code,
         code = PyInt 0 \/ code = PyFloat (Finite 0) ->
         exists pt, decode_precipitation_type code = Ret pt
                    /\ d_precip_type pt = None
                    /\ fst (refine_with_wmo pt (Some 95%Z)) = Some "thunderstorm"%string).
Proof.
  assert (Keep : forall pt wmo p,
             d_precip_type pt = Some p ->
             match wmo with
             | Some w => fog_or_thunderstorm (zdict_get _WMO_PRECIP_TYPE w) = false
             | None => True
             end ->
             fst (refine_with_wmo pt wmo) = Some p).
  { intros pt wmo p Hp Hw. unfold refine_with_wmo. destruct wmo as [w |].
    - rewrite Hw, Hp. simpl. reflexivity.
    - simpl. assumption. }
  refine (conj _ (conj _ (conj Keep (conj _ _)))).
  - intros pt w kind Hk [-> | ->]; unfold refine_with_wmo; rewrite Hk; reflexivity.
  - intros pt w kind Hk Hkind. split.
    + intros Hnone. unfold refine_with_wmo. rewrite Hk, Hnone.
      destruct Hkind as [-> | ->]; reflexivity.
    + intros p Hp. apply Keep; [assumption |]. rewrite Hk.
      destruct Hkind as [-> | ->]; reflexivity.
  - intros wmo code Hw [-> | ->]; (eexists; split; [reflexivity |]);
      (apply Keep; [reflexivity | assumption]).
  - intros code [-> | ->]; (eexists; split; [reflexivity |]); split; reflexivity.
Qed.

End Decoder.

Lemma two_stage_decode_precedence_witness :
  fst (refine_with_wmo {| d_precip_type := Some "rain"%string; d_label := "Rain" |}
                       (Some 45%Z)) = Some "fog"%string
  /\ fst (refine_with_wmo {| d_precip_type := None; d_label := "No precipitation" |}
                          (Some 85%Z)) = Some "snow_showers"%string
  /\ fst (refine_with_wmo {| d_precip_type := Some "sleet"%string; d_label := "Ice pellets" |}
                          (Some 80%Z)) = Some "sleet"%string
  /\ fst (refine_with_wmo {| d_precip_type := Some "snow"%string; d_label := "Snow" |}
                          (Some 3%Z)) = Some "snow"%string
  /\ (exists pt, decode_precipitation_type (PyFloat (Finite 5)) = Ret pt
                 /\ fst (refine_with_wmo pt (Some 81%Z)) = Some "snow"%string).
Proof.
  destruct two_stage_decode_precedence as (Over & Fill & Keep & Snow & _).
  refine (conj _ (conj _ (conj _ (conj _ _)))).
  - apply (Over _ 45%Z "fog"%string); [reflexivity | left; reflexivity].
  - apply (proj1 (Fill _ 85%Z "snow_showers"%string eq_refl (or_intror eq_refl))).
    reflexivity.
  - apply (proj2 (Fill _ 80%Z "showers"%string eq_refl (or_introl eq_refl))).
    reflexivity.
  - apply (Keep _ (Some 3%Z)); reflexivity.
  - apply (Snow (Some 81%Z) (PyFloat (Finite 5))); [reflexivity | right; reflexivity].
Defined.

End DecoderFacts.

Module AlignmentFacts.
Import Py Data Weather Reference.

Section Scan.
Context `{L : Lib}.
Variable target : datetime.

Lemma below_true (diff : Q) (best : option Q) :
  below diff best = true ->
  match best with Some b => diff < b | None => True end.
Proof.
  destruct best as [b |]; simpl; [| trivial].
  intros H. apply negb_true_iff in H.
  destruct (Qlt_le_dec diff b) as [Lt | Le]; [assumption |].
  apply Qle_bool_iff in Le. congruence.
Qed.

Lemma below_false (diff : Q) (best : option Q) :
  below diff best = false -> exists b, best = Some b /\ b <= diff.
Proof.
  destruct best as [b |]; simpl; [| discriminate].
  intros H. apply negb_false_iff in H. apply Qle_bool_iff in H.
  exists b. split; [reflexivity | assumption].
Qed.

(** Subtraction is defined between operands of equal awareness. *)
Lemma datetime_sub_defined (t : datetime) :
  is_none (utcoffset t) = is_none (utcoffset target) ->
  exists td, datetime_sub t target = Ret td.
Proof.
  unfold datetime_sub.
  destruct (utcoffset t), (utcoffset target); simpl; intros E;
    try discriminate; eexists; reflexivity.
Qed.

Lemma diff_at_app (prefix : list string) (t_str : string) (rest : list string) :
  diff_at (prefix ++ t_str :: rest) target (List.length prefix) = entry_diff target t_str.
Proof.
  unfold diff_at. rewrite nth_error_app2 by lia.
  rewrite Nat.sub_diag. reflexivity.
Qed.

Lemma scan_run :
  forall (suffix prefix : list string) (best_idx : option nat) (best_diff : option Q),
    Forall (same_awareness target) suffix ->
    scan_inv (prefix ++ suffix) target (List.length prefix) best_idx best_diff ->
    exists best_idx' best_diff',
      nearest_scan suffix (List.length prefix) target best_idx best_diff
      = Ret (best_idx', best_diff')
      /\ scan_inv (prefix ++ suffix) target (List.length (prefix ++ suffix))
                  best_idx' best_diff'.
Proof.
  induction suffix as [| t_str rest IH]; intros prefix best_idx best_diff Aware Inv.
  - exists best_idx, best_diff. rewrite app_nil_r in *. split; [reflexivity | assumption].
  - inversion Aware as [| ? ? Here Later]; subst.
    assert (Shift : prefix ++ t_str :: rest = (prefix ++ [t_str]) ++ rest)
      by (rewrite <- app_assoc; reflexivity).
    assert (Len : List.length (prefix ++ [t_str]) = S (List.length prefix))
      by (rewrite length_app; simpl; lia).
    pose proof (diff_at_app prefix t_str rest) as Here_diff.
    assert (Step : forall bi bd,
               scan_inv (prefix ++ t_str :: rest) target (S (List.length prefix)) bi bd ->
               exists best_idx' best_diff',
                 nearest_scan rest (S (List.length prefix)) target bi bd
                 = Ret (best_idx', best_diff')
                 /\ scan_inv (prefix ++ t_str :: rest) target
                             (List.length (prefix ++ t_str :: rest)) best_idx' best_diff').
    { intros bi bd Inv'. rewrite Shift. rewrite <- Len.
      apply IH; [assumption |]. rewrite <- Shift, Len. exact Inv'. }
    set (times := prefix ++ t_str :: rest) in *.
    set (i := List.length prefix) in *.
    cbn [nearest_scan]. unfold same_awareness in Here. unfold entry_diff in Here_diff.
    destruct (fromisoformat t_str) as [t |] eqn:Parse.
    + destruct (datetime_sub_defined t Here) as [td Sub].
      rewrite Sub in *. cbn [bind].
      set (diff := Qabs (total_seconds td)) in *.
      destruct (below diff best_diff) eqn:B.
      * apply Step. apply below_true in B.
        unfold scan_inv in *.
        destruct best_idx as [b |], best_diff as [d |]; try contradiction.
        -- destruct Inv as (Hb & Hd & Hmin & Hfirst).
           refine (conj _ (conj Here_diff (conj _ _))); [lia | |].
           ++ intros j d' Hj Hd'. destruct (Nat.eq_dec j i) as [-> | N].
              ** rewrite Here_diff in Hd'. injection Hd' as <-. lra.
              ** assert (d <= d') by (apply (Hmin j); [lia | assumption]). lra.
           ++ intros j d' Hj Hd'.
              assert (d <= d') by (apply (Hmin j); [lia | assumption]). lra.
        -- refine (conj _ (conj Here_diff (conj _ _))); [lia | |].
           ++ intros j d' Hj Hd'. destruct (Nat.eq_dec j i) as [-> | N].
              ** rewrite Here_diff in Hd'. injection Hd' as <-. lra.
              ** rewrite Inv in Hd' by lia. discriminate.
           ++ intros j d' Hj Hd'. rewrite Inv in Hd' by lia. discriminate.
      * apply Step. apply below_false in B. destruct B as (d & -> & Hle).
        unfold scan_inv in *.
        destruct best_idx as [b |]; try contradiction.
        destruct Inv as (Hb & Hd & Hmin & Hfirst).
        refine (conj _ (conj Hd (conj _ Hfirst))); [lia |].
        intros j d' Hj Hd'. destruct (Nat.eq_dec j i) as [-> | N].
        -- rewrite Here_diff in Hd'. injection Hd' as <-. assumption.
        -- apply (Hmin j); [lia | assumption].
    + apply Step.
      unfold scan_inv in *.
      destruct best_idx as [b |], best_diff as [d |]; try contradiction.
      * destruct Inv as (Hb & Hd & Hmin & Hfirst).
        refine (conj _ (conj Hd (conj _ Hfirst))); [lia |].
        intros j d' Hj Hd'. destruct (Nat.eq_dec j i) as [-> | N].
        -- rewrite Here_diff in Hd'. discriminate.
        -- apply (Hmin j); [lia | assumption].
      * intros j Hj. destruct (Nat.eq_dec j i) as [-> | N];
          [assumption | apply Inv; lia].
Qed.

Lemma diff_at_beyond (times : list string) (j : nat) (d : Q) :
  diff_at times target j = Some d -> (j < List.length times)%nat.
Proof.
  unfold diff_at. intros H. apply nth_error_Some.
  destruct (nth_error times j); [discriminate | discriminate].
Qed.

Lemma entry_diff_none (t_str : string) :
  same_awareness target t_str -> entry_diff target t_str = None ->
  fromisoformat t_str = None.
Proof.
  unfold same_awareness, entry_diff.
  destruct (fromisoformat t_str) as [t |]; [| reflexivity].
  intros Aware H. destruct (datetime_sub_defined t Aware) as [td Sub].
  rewrite Sub in H. discriminate.
Qed.

Lemma entry_diff_unparsable (t_str : string) :
  fromisoformat t_str = None -> entry_diff target t_str = None.
Proof. unfold entry_diff. intros ->. reflexivity. Qed.

(** The scan stops with [TypeError] at the first parsable entry whose
    awareness differs from the target's. *)
Lemma scan_raises_on_mixed (t_str : string) (t : datetime) :
  fromisoformat t_str = Some t ->
  is_none (utcoffset t) <> is_none (utcoffset target) ->
  forall (before after : list string) (i : nat) (best_idx : option nat) (best_diff : option Q),
    Forall (same_awareness target) before ->
    nearest_scan (before ++ t_str :: after) i target best_idx best_diff
    = Raise (Exn TypeError "can't subtract offset-naive and offset-aware datetimes").
Proof.
  intros Parse Mixed. induction before as [| s before IH];
    intros after i best_idx best_diff Aware.
  - cbn [app nearest_scan]. rewrite Parse. unfold datetime_sub.
    destruct (utcoffset t), (utcoffset target); simpl in Mixed; try congruence;
      reflexivity.
  - inversion Aware as [| ? ? Here Later]; subst.
    cbn [app nearest_scan]. unfold same_awareness in Here.
    destruct (fromisoformat s) as [t' |]; [| apply IH; assumption].
    destruct (datetime_sub_defined t' Here) as [td Sub]. rewrite Sub. cbn [bind].
    destruct (below (Qabs (total_seconds td)) best_diff); apply IH; assumption.
Qed.

End Scan.

(** C1 as stated fails.  The only entry of the series parses (to an
    aware timestamp, since it carries [+00:00]) and denotes the very
    instant of the naive target, yet the call neither reports not-found
    nor returns index 0: the subtraction raises [TypeError], which the
    [except ValueError] clause does not catch. *)
Lemma nearest_hour_mixed_zone_counterexample :
  let target := {| wall_us := 1704067200000000; utcoffset := None |} in
  fromisoformat "2024-01-01T00:00+00:00"
  = Some {| wall_us := 1704067200000000; utcoffset := Some 0%Z |}
  /\ _nearest_hour_index ["2024-01-01T00:00+00:00"%string] target
     = Raise (Exn TypeError "can't subtract offset-naive and offset-aware datetimes")
  /\ ~ returns (_nearest_hour_index ["2024-01-01T00:00+00:00"%string] target).
Proof.
  cbv zeta. refine (conj _ (conj _ _)).
  - vm_compute. reflexivity.
  - vm_compute. reflexivity.
  - intros [r Hr]. vm_compute in Hr. discriminate.
Qed.

(** C1, amended: when every parsable entry of the series is naive or
    aware as the target is, [_nearest_hour_index] returns; it returns
    not-found exactly when no entry parses or the least distance to the
    target exceeds 12 hours; and an index it returns carries the least
    distance, which is within 12 hours, with every earlier parsable
    entry strictly farther away. Unparsable entries are passed over. *)
Theorem nearest_hour_index_spec `{L : Lib} (times : list string) (target : datetime) :
  Forall (same_awareness target) times ->
  exists r,
    _nearest_hour_index times target = Ret r
    /\ (r = None <->
        (forall t_str, In t_str times -> fromisoformat t_str = None)
        \/ (exists i d,
              diff_at times target i = Some d
              /\ (forall j d', diff_at times target j = Some d' -> d <= d')
              /\ horizon_seconds < d))
    /\ (forall i, r = Some i ->
          exists d,
            diff_at times target i = Some d
            /\ d <= horizon_seconds
            /\ (forall j d', diff_at times target j = Some d' -> d <= d')
            /\ (forall j d', (j < i)%nat -> diff_at times target j = Some d' -> d < d')).
Proof.
  intros Aware.
  destruct (scan_run target times [] None None Aware) as (bi & bd & Run & Inv).
  { simpl. intros j Hj. lia. }
  simpl in Run, Inv. unfold _nearest_hour_index. rewrite Run. cbn [bind].
  unfold scan_inv in Inv.
  destruct bi as [b |], bd as [d |]; try contradiction.
  - destruct Inv as (Hb & Hd & Hmin & Hfirst).
    assert (Hall : forall j d', diff_at times target j = Some d' -> d <= d').
    { intros j d' Hj. apply (Hmin j); [| assumption].
      apply (diff_at_beyond target times j d'). assumption. }
    destruct (Qle_bool d horizon_seconds) eqn:Within.
    + apply Qle_bool_iff in Within.
      exists (Some b). refine (conj eq_refl (conj _ _)).
      * split; [discriminate |].
        intros [Unparsable | (i & d0 & Hi & Hleast & Hfar)]; exfalso.
        -- unfold diff_at in Hd. destruct (nth_error times b) as [s |] eqn:Nth;
             [| discriminate].
           apply nth_error_In in Nth.
           rewrite (entry_diff_unparsable target s (Unparsable s Nth)) in Hd.
           discriminate.
        -- specialize (Hleast b d Hd). lra.
      * intros i Hi. injection Hi as <-. exists d.
        refine (conj Hd (conj Within (conj Hall Hfirst))).
    + assert (Far : horizon_seconds < d)
        by (destruct (Qlt_le_dec horizon_seconds d) as [Lt | Le];
            [assumption | apply Qle_bool_iff in Le; congruence]).
      exists None. refine (conj eq_refl (conj _ _)).
      * split; [| reflexivity]. intros _. right. exists b, d.
        refine (conj Hd (conj Hall Far)).
      * intros i Hi. discriminate.
  - exists None. refine (conj eq_refl (conj _ _)).
    + split; [| reflexivity]. intros _. left. intros t_str Hin.
      apply In_nth_error in Hin. destruct Hin as [j Hj].
      assert (Lt : (j < List.length times)%nat)
        by (apply nth_error_Some; congruence).
      specialize (Inv j Lt). unfold diff_at in Inv. rewrite Hj in Inv.
      apply (entry_diff_none target); [| assumption].
      rewrite Forall_forall in Aware. apply Aware.
      apply (nth_error_In _ _ Hj).
    + intros i Hi. discriminate.
Qed.

Lemma nearest_hour_index_spec_witness :
  let target := {| wall_us := 1704099000000000; utcoffset := None |} in
  let times := ["2024-01-01T08:00"; "not a time"; "2024-01-01T09:00";
                "2024-01-01T10:00"]%string in
  _nearest_hour_index times target = Ret (Some 2%nat).
Proof.
  cbv zeta.
  destruct (nearest_hour_index_spec
              ["2024-01-01T08:00"; "not a time"; "2024-01-01T09:00";
               "2024-01-01T10:00"]%string
              {| wall_us := 1704099000000000; utcoffset := None |})
    as (r & Run & _ & _).
  - repeat constructor.
  - rewrite Run. vm_compute in Run. injection Run as <-. reflexivity.
Defined.

End AlignmentFacts.

Module FetchFacts.
Import Py Data Weather Reference PyFacts DecoderFacts.

Section Fetch.
Context `{L : Lib}.

Lemma val_null (hourly : hourly_data) (best_idx : nat) (key : string) (fallback : option Q) :
  is_null hourly best_idx key -> val hourly best_idx key fallback = fallback.
Proof. unfold is_null, element, val. intros ->. reflexivity. Qed.

Lemma val_value (hourly : hourly_data) (best_idx : nat) (key : string)
      (fallback : option Q) (x : Q) :
  has_value hourly best_idx key x -> val hourly best_idx key fallback = Some x.
Proof. unfold has_value, element, val. intros ->. reflexivity. Qed.

Lemma or_zero_some (x : Q) : or_zero (Some x) == x.
Proof.
  unfold or_zero. destruct (Qeq_bool x 0) eqn:E; [| reflexivity].
  apply Qeq_bool_eq in E. symmetry. assumption.
Qed.

Lemma decode_code_value (x : option Q) :
  exists d, decode_precipitation_type (code_value x) = Ret d.
Proof.
  apply decode_returns_unless_infinite. intros negative.
  destruct x; discriminate.
Qed.

(** Once an index is selected, building the record cannot fail. *)
Lemma populate_returns (hourly : hourly_data) (best_idx : nat) (wind_warning_mph : Q) :
  exists w, populate hourly best_idx wind_warning_mph = Ret w /\ is_populated w.
Proof.
  unfold populate.
  destruct (decode_code_value (val hourly best_idx "precipitation_type" None)) as [d Hd].
  rewrite Hd. cbn [bind].
  destruct (refine_with_wmo d _) as [pt cond].
  eexists. split; [reflexivity | split; reflexivity].
Qed.

(** The [precip_type] and [condition] of a populated record are the
    two-stage decode of the two code arrays at the selected index. *)
Lemma populate_two_stage (hourly : hourly_data) (best_idx : nat) (wind_warning_mph : Q)
      (w : weather_record) :
  populate hourly best_idx wind_warning_mph = Ret w ->
  exists pt,
    decode_precipitation_type
      (code_value (val hourly best_idx "precipitation_type" None)) = Ret pt
    /\ (precip_type w, condition w)
       = refine_with_wmo pt (option_map trunc (val hourly best_idx "weather_code" None)).
Proof.
  unfold populate.
  destruct (decode_code_value (val hourly best_idx "precipitation_type" None)) as [d Hd].
  rewrite Hd. cbn [bind].
  destruct (refine_with_wmo d _) as [pt cond] eqn:R.
  intros E. injection E as <-. exists d. split; [reflexivity |].
  cbn [precip_type condition]. symmetry. exact R.
Qed.

(** Every path through [_fetch_one] ends in a return or a raise. *)
Lemma nearest_scan_not_stuck :
  forall times i target best_idx best_diff,
    nearest_scan times i target best_idx best_diff <> OutOfFuel.
Proof.
  induction times as [| t_str rest IH]; intros i target best_idx best_diff;
    cbn [nearest_scan]; [discriminate |].
  destruct (fromisoformat t_str) as [t |]; [| apply IH].
  unfold datetime_sub.
  destruct (utcoffset t), (utcoffset target); cbn [bind]; try discriminate;
    match goal with |- context [below ?d ?b] => destruct (below d b) end; apply IH.
Qed.

Lemma fetch_one_not_stuck (wp : waypoint) (wind_warning_mph : Q) (net : http) :
  _fetch_one wp wind_warning_mph net <> OutOfFuel.
Proof.
  unfold _fetch_one.
  destruct (arrival_dt wp) as [a |]; [| discriminate].
  destruct net as [e | status payload]; [discriminate |].
  destruct (negb (status =? 200)%Z); [discriminate |].
  destruct payload as [e | [hourly |]]; try discriminate.
  destruct (time hourly) as [| t0 ts] eqn:Times; [discriminate |].
  unfold _nearest_hour_index.
  destruct (nearest_scan (t0 :: ts) 0 (to_naive_utc a) None None)
    as [[bi bd] | e |] eqn:Scan; cbn [bind]; try discriminate.
  - assert (Sel : exists r, match bd with
                            | Some d => if Qle_bool d horizon_seconds
                                        then Ret bi else Ret None
                            | None => Ret None
                            end = Ret r).
    { destruct bd as [d |]; [destruct (Qle_bool d horizon_seconds) |];
        eexists; reflexivity. }
    destruct Sel as [r ->]. cbn [bind].
    destruct r as [best_idx |]; [| discriminate].
    destruct (populate_returns hourly best_idx wind_warning_mph) as (w & -> & _).
    discriminate.
  - exfalso. apply (nearest_scan_not_stuck _ _ _ _ _ Scan).
Qed.

Lemma fetch_one_shape (wp : waypoint) (wind_warning_mph : Q) (net : http)
      (w : weather_record) :
  _fetch_one wp wind_warning_mph net = Ret w -> is_populated w \/ is_unavailable w.
Proof.
  assert (U : forall text w', Ret (_weather_unavailable text) = Ret w' ->
                              is_populated w' \/ is_unavailable w').
  { intros text w' E. injection E as <-. right. split; [reflexivity |].
    exists text. reflexivity. }
  unfold _fetch_one.
  destruct (arrival_dt wp) as [a |]; [| discriminate].
  destruct net as [e | status payload]; [discriminate |].
  destruct (negb (status =? 200)%Z); [apply U |].
  destruct payload as [e | [hourly |]]; [discriminate | | apply U].
  destruct (time hourly) as [| t0 ts]; [apply U |].
  destruct (_nearest_hour_index (t0 :: ts) (to_naive_utc a)) as [[best_idx |] | e |];
    cbn [bind]; try discriminate; [| apply U].
  destruct (populate_returns hourly best_idx wind_warning_mph) as (w' & -> & P).
  intros E. injection E as <-. left. assumption.
Qed.

(** What the collecting loop stores for a future is always a record,
    of one of the two shapes. *)
Lemma collect_returns (wp : waypoint) (wind_warning_mph : Q) (net : http) :
  exists w, collect (_fetch_one wp wind_warning_mph net) = Ret w
            /\ (is_populated w \/ is_unavailable w).
Proof.
  unfold collect, try_except.
  destruct (_fetch_one wp wind_warning_mph net) as [w | e |] eqn:F.
  - exists w. split; [reflexivity |]. apply (fetch_one_shape _ _ _ _ F).
  - eexists. split; [reflexivity |]. right. split; [reflexivity |].
    eexists. reflexivity.
  - exfalso. apply (fetch_one_not_stuck _ _ _ F).
Qed.

End Fetch.
End FetchFacts.

Module PoolFacts.
Import Py Data Weather Reference PyFacts DecoderFacts FetchFacts.

Lemma list_update_length {A : Type} (f : A -> A) :
  forall (l : list A) (idx : nat), List.length (list_update l idx f) = List.length l.
Proof.
  induction l as [| x l IH]; intros idx; [reflexivity |].
  destruct idx; simpl; [reflexivity | rewrite IH; reflexivity].
Qed.

Lemma list_update_same {A : Type} (f : A -> A) :
  forall (l : list A) (idx : nat) (x : A),
    nth_error l idx = Some x -> nth_error (list_update l idx f) idx = Some (f x).
Proof.
  induction l as [| y l IH]; intros idx x H; destruct idx; simpl in *;
    try discriminate.
  - injection H as ->. reflexivity.
  - apply IH. assumption.
Qed.

Lemma list_update_other {A : Type} (f : A -> A) :
  forall (l : list A) (idx j : nat),
    j <> idx -> nth_error (list_update l idx f) j = nth_error l j.
Proof.
  induction l as [| y l IH]; intros idx j N; destruct idx, j; simpl;
    try reflexivity; try congruence.
  apply IH. congruence.
Qed.

Section Pool.
Context `{L : Lib}.
Variable submitted : list waypoint.
Variable wind_warning_mph : Q.
Variable net : nat -> http.

Lemma collect_all_run :
  forall (completed : list nat) (current : list waypoint) (done : nat -> Prop),
    (forall idx, In idx completed -> (idx < List.length submitted)%nat) ->
    collect_inv submitted wind_warning_mph net current done ->
    exists annotated,
      collect_all submitted wind_warning_mph net completed current = Ret annotated
      /\ collect_inv submitted wind_warning_mph net annotated
                     (fun idx => done idx \/ In idx completed).
Proof.
  induction completed as [| idx later IH]; intros current done Range Inv.
  - exists current. split; [reflexivity |].
    destruct Inv as [Len Slots]. split; [assumption |].
    intros idx wp Hwp. destruct (Slots idx wp Hwp) as (x & Hx & Same & Done).
    exists x. refine (conj Hx (conj Same _)).
    intros [D | []]. apply Done. assumption.
  - cbn [collect_all].
    destruct (nth_error submitted idx) as [wp |] eqn:Hwp.
    2: { exfalso. apply nth_error_None in Hwp.
         specialize (Range idx (or_introl eq_refl)). lia. }
    destruct (collect_returns wp wind_warning_mph (net idx)) as (w & Hw & _).
    rewrite Hw. cbn [bind].
    destruct Inv as [Len Slots].
    destruct (IH (list_update current idx (fun x => set_weather x w))
                 (fun j => done j \/ j = idx)) as (annotated & Run & Inv').
    + intros j Hj. apply Range. right. assumption.
    + split; [rewrite list_update_length; assumption |].
      intros j wpj Hj. destruct (Slots j wpj Hj) as (x & Hx & Same & Done).
      destruct (Nat.eq_dec j idx) as [-> | N].
      * assert (wpj = wp) by congruence. subst wpj.
        exists (set_weather x w). refine (conj _ (conj _ _)).
        -- apply (list_update_same (fun y => set_weather y w)). assumption.
        -- intros w'. change (set_weather x w' = set_weather wp w'). apply Same.
        -- intros _ w' Hw'. assert (w' = w) by congruence. subst w'. apply Same.
      * exists x. refine (conj _ (conj Same _)).
        -- rewrite list_update_other by assumption. assumption.
        -- intros [D | E]; [apply Done; assumption | contradiction].
    + exists annotated. split; [assumption |].
      destruct Inv' as [Len' Slots']. split; [assumption |].
      intros j wpj Hj. destruct (Slots' j wpj Hj) as (x & Hx & Same & Done).
      exists x. refine (conj Hx (conj Same _)).
      intros [D | [E | In']]; apply Done; auto.
Qed.

End Pool.
End PoolFacts.

Module WeatherClaims.
Import Py Data Weather Reference PyFacts DecoderFacts FetchFacts PoolFacts.




Lemma qmin_comp (a b c : Q) : a == b -> qmin a c == qmin b c.
Proof.
  intros E. unfold qmin.
  destruct (Qlt_le_dec c a), (Qlt_le_dec c b); try reflexivity; try assumption; lra.
Qed.

(** C9: with an index selected, [_fetch_one] returns a record with
    [available] true whatever the arrays hold there; an array whose
    element at the index is null contributes its default (no
    temperature and no codes; 0 for the precipitation, rain, showers,
    snowfall, cloud-cover and wind-speed fields; ["N"] for a direction
    of 0 degrees; 9.9 miles for the 16000 m visibility default), and an
    array with a number there contributes that number, converted and
    rounded, independently of the other arrays. *)
Theorem null_elements_take_defaults `{L : Lib} (wp : waypoint) (a : datetime)
        (wind_warning_mph : Q) (hourly : hourly_data) (best_idx : nat) :
  arrival_dt wp = Some a ->
  _nearest_hour_index (time hourly) (to_naive_utc a) = Ret (Some best_idx) ->
  exists w,
    _fetch_one wp wind_warning_mph (Response 200 (Json (Some hourly))) = Ret w
    /\ available w = true
    /\ (is_null hourly best_idx "temperature_2m" -> temp_f w = None)
    /\ (is_null hourly best_idx "precipitation" -> precip_in_hr w == 0)
    /\ (is_null hourly best_idx "rain" -> rain_in_hr w == 0)
    /\ (is_null hourly best_idx "showers" -> showers_in_hr w == 0)
    /\ (is_null hourly best_idx "snowfall" -> snowfall_in_hr w == 0)
    /\ (is_null hourly best_idx "cloud_cover" -> cloud_pct w == 0)
    /\ (is_null hourly best_idx "wind_speed_10m" ->
        wind_mph w == 0 /\ wind_warning w = Qle_bool wind_warning_mph 0)
    /\ (is_null hourly best_idx "wind_direction_10m" -> wind_dir w = "N"%string)
    /\ (is_null hourly best_idx "visibility" -> vis_mi w == 99 # 10)
    /\ (is_null hourly best_idx "precipitation_type" -> precip_type_code w = None)
    /\ (is_null hourly best_idx "weather_code" -> weather_code w = None)
    /\ (forall x, has_value hourly best_idx "temperature_2m" x ->
                  temp_f w = Some (round x 1))
    /\ (forall x, has_value hourly best_idx "precipitation" x ->
                  precip_in_hr w = round x 4)
    /\ (forall x, has_value hourly best_idx "rain" x -> rain_in_hr w = round x 4)
    /\ (forall x, has_value hourly best_idx "showers" x -> showers_in_hr w = round x 4)
    /\ (forall x, has_value hourly best_idx "snowfall" x ->
                  snowfall_in_hr w = round (x * (393701 # 1000000)) 4)
    /\ (forall x, has_value hourly best_idx "cloud_cover" x -> cloud_pct w = round x 1)
    /\ (forall x, has_value hourly best_idx "wind_speed_10m" x -> wind_mph w = round x 1)
    /\ (forall x, has_value hourly best_idx "wind_direction_10m" x ->
                  wind_dir w = _degrees_to_compass (Some x))
    /\ (forall x, has_value hourly best_idx "visibility" x ->
                  vis_mi w = round (qmin (x / (160934 # 100)) 99) 1)
    /\ (forall x, has_value hourly best_idx "precipitation_type" x ->
                  precip_type_code w = Some (trunc x))
    /\ (forall x, has_value hourly best_idx "weather_code" x ->
                  weather_code w = Some (trunc x)).
Proof.
  intros Arr Sel. unfold _fetch_one. rewrite Arr. cbn [Z.eqb Pos.eqb negb].
  destruct (time hourly) as [| t0 ts] eqn:Times.
  { unfold _nearest_hour_index in Sel. simpl in Sel. discriminate. }
  rewrite Sel. cbn [bind]. unfold populate.
  destruct (decode_code_value (val hourly best_idx "precipitation_type" None)) as [d Hd].
  rewrite Hd. cbn [bind].
  destruct (refine_with_wmo d _) as [pt cond].
  eexists. split; [reflexivity |]. cbn -[val round or_zero qmin trunc _degrees_to_compass].
  repeat match goal with
         | |- _ /\ _ => split
         | |- is_null _ _ _ -> _ => let H := fresh "N" in intros H; rewrite !(val_null _ _ _ _ H)
         | |- forall x, has_value _ _ _ x -> _ =>
             let x := fresh "x" in let H := fresh "V" in
             intros x H; rewrite !(val_value _ _ _ _ _ H)
         end;
    try reflexivity;
    try (vm_compute; reflexivity);
    try (apply round_comp; try apply qmin_comp;
         rewrite or_zero_some; reflexivity).
Qed.

Lemma null_elements_take_defaults_witness :
  exists w,
    _fetch_one timed_checkpoint 40 (Response 200 (Json (Some sample_hourly))) = Ret w
    /\ available w = true
    /\ temp_f w = None
    /\ wind_mph w = round 45 1.
Proof.
  destruct (null_elements_take_defaults
              timed_checkpoint
              {| wall_us := 1704099000000000; utcoffset := None |}
              40 sample_hourly 1%nat eq_refl)
    as (w & Ran & Avail & Temp & Rest).
  - vm_compute. reflexivity.
  - exists w. refine (conj Ran (conj Avail (conj _ _))).
    + apply Temp. reflexivity.
    + destruct Rest as (_ & _ & _ & _ & _ & _ & _ & _ & _ & _ & _ & _ & _ & _ & _ & _ & Wind & _).
      apply Wind. reflexivity.
Defined.

End WeatherClaims.

(* ================================================================== *)
(** ** Worked scenarios *)
(* ================================================================== *)

Module Scenarios.
Import Py Data Routing Weather App Reference.

(** [interpolate_point] returns its end points at fractions 0 and 1. *)
Lemma interpolate_point_ends (lon1 lat1 lon2 lat2 : Q) :
  fst (interpolate_point lon1 lat1 lon2 lat2 0) == lon1
  /\ snd (interpolate_point lon1 lat1 lon2 lat2 0) == lat1
  /\ fst (interpolate_point lon1 lat1 lon2 lat2 1) == lon2
  /\ snd (interpolate_point lon1 lat1 lon2 lat2 1) == lat2.
Proof. unfold interpolate_point; simpl. repeat split; ring. Qed.

(** A route of 120 miles sampled every 50 gives stored distances 50, 100
    and 120. *)
Example sampled_miles_50_100_120 :
  exists wps,
    sample_waypoints 3 [(0, 0); (120 # 69, 0)] 50 120 = Ret wps
    /\ map label wps = [ "Checkpoint 1 (Mile 50)"; "Checkpoint 2 (Mile 100)";
                         "Destination (Mile 120)" ]%string
    /\ Forall2 Qeq (map mile wps) [50; 100; 120].
Proof.
  eexists. split; [reflexivity |]. split; [reflexivity |].
  repeat constructor.
Qed.

(** The destination is appended even when the last checkpoint already
    sits on it. *)
Example destination_after_coinciding_checkpoint :
  exists wps,
    sample_waypoints 3 [(0, 0); (100 # 69, 0)] 50 100 = Ret wps
    /\ map label wps = [ "Checkpoint 1 (Mile 50)"; "Checkpoint 2 (Mile 100)";
                         "Destination (Mile 100)" ]%string.
Proof. eexists. split; reflexivity. Qed.

(** Two entries equally far from the target: the earlier index wins. *)
Example nearest_hour_tie_takes_first :
  _nearest_hour_index ["2024-01-01T08:00"; "2024-01-01T10:00"]%string
                      {| wall_us := 1704099600000000; utcoffset := None |}
  = Ret (Some 0%nat).
Proof. reflexivity. Qed.

(** A target 20 hours past the last entry is outside the horizon, and the
    record says so. *)
Example beyond_horizon_is_unavailable :
  _fetch_one {| lon := 0; lat := 0; mile := 0; label := "far";
                arrival_dt := Some {| wall_us := 1704175200000000; utcoffset := None |};
                arrival_str := None; weather := None |}
             40 (Response 200 (Json (Some sample_hourly)))
  = Ret (_weather_unavailable
           "Arrival time 2024-01-02T06:00:00 is outside the 15-day forecast window.").
Proof. reflexivity. Qed.

(** The whole request: departure 08:00 at 60 mph over 120 miles sampled
    every 50 arrives at 08:50, 09:40 and 10:00, and every waypoint leaves
    with a weather record. *)
Example plan_end_to_end :
  exists annotated total duration,
    plan "key" 40 3 (sample_request 50 60) = Ret (ResultPage annotated total duration)
    /\ map arrival_str annotated
       = [ Some "Mon Jan 1, 08:50 AM"; Some "Mon Jan 1, 09:40 AM";
           Some "Mon Jan 1, 10:00 AM" ]%string
    /\ map (fun wp => option_map available (weather wp)) annotated
       = [Some true; Some false; Some false].
Proof. do 3 eexists. split; [vm_compute; reflexivity |]. split; reflexivity. Qed.

(** Missing text fields are reported before anything else runs. *)
Example plan_rejects_missing_fields :
  plan "key" 40 0 {| start := "  "; end_ := ""; departure := "2024-01-01T08:00";
                     interval := 50; avg_speed := 60 |}
  = Ret (IndexPage [ "Starting address is required."; "Ending address is required." ]%string).
Proof. reflexivity. Qed.

End Scenarios.

(* ================================================================== *)
(** ** Further properties of the three files *)
(* ================================================================== *)

Module RoutingExtras.
Import Py Data Routing Notions Reference PyFacts RoutingFacts RoutingMore PlanClaims.








(** A non-positive interval is not refused by the sampler: on a geometry
    of two or more points it never returns (it divides by the first
    segment's length when that is zero, and appends without end
    otherwise), while a geometry of a single point, having no segment, is
    answered with the destination alone and an empty one with
    [IndexError]. *)
Theorem sampler_on_nonpositive_interval `{G : Geodesy}
        (first second : coord) (rest : list coord) (interval_mi total_dist_mi : Q) :
  interval_mi <= 0 ->
  (forall fuel,
      ~ returns (sample_waypoints fuel (first :: second :: rest) interval_mi total_dist_mi))
  /\ (haversine_mi (fst first) (snd first) (fst second) (snd second) == 0 ->
      forall fuel,
        sample_waypoints (S fuel) (first :: second :: rest) interval_mi total_dist_mi
        = Raise (Exn ZeroDivisionError "float division by zero"))
  /\ (~ haversine_mi (fst first) (snd first) (fst second) (snd second) == 0 ->
      forall fuel,
        sample_waypoints fuel (first :: second :: rest) interval_mi total_dist_mi
        = OutOfFuel)
  /\ (forall fuel,
         sample_waypoints fuel [first] interval_mi total_dist_mi
         = Ret [destination [first] total_dist_mi])
  /\ (forall fuel,
         sample_waypoints fuel [] interval_mi total_dist_mi
         = Raise (Exn IndexError "list index out of range")).
Proof.
  intros Hi.
  refine (conj _ (conj _ (conj _ (conj _ _)))).
  - intros fuel [wps Hw]. destruct fuel as [| fuel]; [discriminate |].
    rewrite sample_waypoints_nonpositive in Hw by assumption.
    destruct (Qeq_bool _ 0); discriminate.
  - intros Hz fuel. rewrite sample_waypoints_nonpositive by assumption.
    rewrite (Qeq_eq_bool _ _ Hz). reflexivity.
  - intros Hnz fuel. destruct fuel as [| fuel]; [reflexivity |].
    rewrite sample_waypoints_nonpositive by assumption.
    rewrite (Qeq_bool_false _ _ Hnz). reflexivity.
  - reflexivity.
  - reflexivity.
Qed.

Lemma sampler_on_nonpositive_interval_witness :
  (forall fuel, sample_waypoints fuel [(0, 0); (1, 0); (2, 0)] (-10) 138 = OutOfFuel)
  /\ (forall fuel, sample_waypoints (S fuel) [(0, 0); (0, 0); (2, 0)] 0 138
                   = Raise (Exn ZeroDivisionError "float division by zero")).
Proof.
  split.
  - destruct (sampler_on_nonpositive_interval (0, 0) (1, 0) [(2, 0)] (-10) 138)
      as (_ & _ & Loop & _); [vm_compute; discriminate |].
    apply Loop. vm_compute. discriminate.
  - destruct (sampler_on_nonpositive_interval (0, 0) (0, 0) [(2, 0)] 0 138)
      as (_ & Div & _); [vm_compute; discriminate |].
    apply Div. reflexivity.
Defined.









End RoutingExtras.

Module ServiceExtras.
Import Py Data Routing Services.

Lemma raise_for_status_ok (status_code : Z) :
  raise_for_status status_code = Ret tt <-> ~ (400 <= status_code < 600)%Z.
Proof.
  unfold raise_for_status.
  destruct ((400 <=? status_code)%Z && (status_code <? 600)%Z) eqn:E.
  - apply andb_true_iff in E. destruct E as [A B].
    apply Z.leb_le in A. apply Z.ltb_lt in B. split; [discriminate | lia].
  - apply andb_false_iff in E. split; [| reflexivity].
    intros _. destruct E as [A | B]; [apply Z.leb_gt in A | apply Z.ltb_ge in B]; lia.
Qed.

(** [geocode] raises exactly when [CONTACT_EMAIL] is unset, and then
    whatever the service would answer; with a contact it never raises,
    and it returns a position exactly when the service answered outside
    the 4xx/5xx range with a JSON array whose first item is an object
    with convertible ["lon"] and ["lat"], the position being those two
    numbers, longitude first.  Every other answer gives [None]. *)
Theorem geocode_contract (float_of_str : string -> option Q) (contact : string)
        (nominatim : string -> reply) (address : string) :
  (contact = EmptyString ->
   geocode float_of_str contact nominatim address
   = Raise (Exn RuntimeError "CONTACT_EMAIL is not set in your .env file."))
  /\ (contact <> EmptyString ->
      exists r, geocode float_of_str contact nominatim address = Ret r)
  /\ (forall lon lat,
         geocode float_of_str contact nominatim address = Ret (Some (lon, lat))
         <-> contact <> EmptyString
             /\ exists status_code head rest vlon vlat,
                 nominatim address
                 = Reply status_code (Parsed (JsArray (JsObject head :: rest)))
                 /\ ~ (400 <= status_code < 600)%Z
                 /\ sdict_get head "lon" = Some vlon
                 /\ to_float float_of_str vlon = Ret lon
                 /\ sdict_get head "lat" = Some vlat
                 /\ to_float float_of_str vlat = Ret lat).
Proof.
  refine (conj _ (conj _ _)).
  - intros ->. reflexivity.
  - intros Hc. unfold geocode. destruct contact as [| c contact']; [congruence |].
    destruct (geocode_attempt float_of_str (nominatim address)) as [r | e |] eqn:A;
      cbn [try_except]; try (eexists; reflexivity).
    exfalso. unfold geocode_attempt in A.
    destruct (nominatim address) as [e | status_code body]; [discriminate |].
    destruct (raise_for_status status_code) as [[] | |] eqn:S; cbn [bind] in A;
      try discriminate.
    + destruct body as [e | results]; cbn [json_of bind] in A; [discriminate |].
      destruct (negb (truth results)); [discriminate |].
      destruct (first_item results) as [head | |] eqn:F; cbn [bind] in A; try discriminate.
      * destruct (item head "lon") as [v | |] eqn:I1; cbn [bind] in A; try discriminate.
        -- destruct (to_float float_of_str v) as [x | |] eqn:T1; cbn [bind] in A;
             try discriminate.
           ++ destruct (item head "lat") as [v2 | |] eqn:I2; cbn [bind] in A;
                try discriminate.
              ** destruct (to_float float_of_str v2) as [y | |] eqn:T2; cbn [bind] in A;
                   try discriminate.
                 destruct v2 as [| | | s | |]; simpl in T2; try discriminate.
                 destruct (float_of_str s); discriminate.
              ** destruct head as [| | | | | fields]; simpl in I2; try discriminate.
                 destruct (sdict_get fields "lat"); discriminate.
           ++ destruct v as [| | | s | |]; simpl in T1; try discriminate.
              destruct (float_of_str s); discriminate.
        -- destruct head as [| | | | | fields]; simpl in I1; try discriminate.
           destruct (sdict_get fields "lon"); discriminate.
      * destruct results as [| | | [| c0 s0] | [| x l] |]; simpl in F; discriminate.
    + unfold raise_for_status in S.
      destruct ((400 <=? status_code)%Z && (status_code <? 600)%Z); discriminate.
  - intros lon lat. unfold geocode. split.
    + intros H. destruct contact as [| c contact']; [discriminate |].
      split; [discriminate |].
      destruct (geocode_attempt float_of_str (nominatim address)) as [r | e |] eqn:A;
        cbn [try_except] in H; try discriminate.
      injection H as ->. unfold geocode_attempt in A.
      destruct (nominatim address) as [e | status_code body]; [discriminate |].
      destruct (raise_for_status status_code) as [[] | |] eqn:S; cbn [bind] in A;
        try discriminate.
      apply raise_for_status_ok in S.
      destruct body as [e | results]; cbn [json_of bind] in A; [discriminate |].
      destruct (negb (truth results)); [discriminate |].
      destruct results as [| | | [| c0 s0] | [| head rest] | fields]; simpl in A;
        try discriminate.
      destruct head as [| | | | | fields]; simpl in A; try discriminate.
      destruct (sdict_get fields "lon") as [vlon |] eqn:I1; cbn [bind] in A;
        try discriminate.
      destruct (to_float float_of_str vlon) as [x | |] eqn:T1; cbn [bind] in A;
        try discriminate.
      destruct (sdict_get fields "lat") as [vlat |] eqn:I2; cbn [bind] in A;
        try discriminate.
      destruct (to_float float_of_str vlat) as [y | |] eqn:T2; cbn [bind] in A;
        try discriminate.
      injection A as -> ->.
      exists status_code, fields, rest, vlon, vlat. repeat split; assumption.
    + intros (Hc & status_code & head & rest & vlon & vlat & R & S & I1 & T1 & I2 & T2).
      destruct contact as [| c contact']; [congruence |].
      unfold geocode_attempt. rewrite R.
      apply raise_for_status_ok in S. rewrite S. cbn [bind json_of truth negb first_item item].
      rewrite I1. cbn [bind]. rewrite T1. cbn [bind]. rewrite I2. cbn [bind].
      rewrite T2. reflexivity.
Qed.

(** [get_route] never raises.  It returns a route exactly when the
    service answered outside the 4xx/5xx range with a document that has
    coordinates under features[0].geometry and numbers under
    features[0].properties.summary; the route then carries those
    coordinates as they came, the distance in metres times 0.000621371
    and the duration in seconds over 3600.  Every other answer gives
    [None]. *)
Theorem get_route_contract (directions : coord -> coord -> string -> reply)
        (start end_ : coord) (api_key : string) :
  (exists r, get_route directions start end_ api_key = Ret r)
  /\ (forall r,
         get_route directions start end_ api_key = Ret (Some r)
         <-> exists status_code data vdist vdur meters seconds,
             directions start end_ api_key = Reply status_code (Parsed data)
             /\ ~ (400 <= status_code < 600)%Z
             /\ follow data [Key "features"; First; Key "geometry"; Key "coordinates"]
                = Ret (r_coords r)
             /\ follow data [Key "features"; First; Key "properties"; Key "summary";
                             Key "distance"] = Ret vdist
             /\ follow data [Key "features"; First; Key "properties"; Key "summary";
                             Key "duration"] = Ret vdur
             /\ as_number vdist = Ret meters
             /\ as_number vdur = Ret seconds
             /\ r = {| r_coords := r_coords r;
                       r_distance_mi := meters * (621371 # 1000000000);
                       r_duration_hrs := seconds / 3600 |}).
Proof.
  unfold get_route, get_route_attempt.
  destruct (directions start end_ api_key) as [e | status_code body].
  { split; [eexists; reflexivity |]. intros r. split; [discriminate |].
    intros (s & d & vd & vu & m & sec & R & _). discriminate. }
  destruct (raise_for_status status_code) as [[] | e |] eqn:S.
  3: { unfold raise_for_status in S.
       destruct ((400 <=? status_code)%Z && (status_code <? 600)%Z); discriminate. }
  2: { split; [eexists; reflexivity |]. intros r. split; [discriminate |].
       intros (s & d & vd & vu & m & sec & R & Ok & _).
       injection R as -> _. apply raise_for_status_ok in Ok. congruence. }
  pose proof (proj1 (raise_for_status_ok status_code) S) as Ok.
  destruct body as [e | data]; cbn [json_of bind].
  { split; [eexists; reflexivity |]. intros r. split; [discriminate |].
    intros (s & d & vd & vu & m & sec & R & _). discriminate. }
  cbn [follow].
  assert (NoFuel1 : forall v k, item v k <> OutOfFuel).
  { intros v k. destruct v as [| | | | | fields]; simpl; try discriminate.
    destruct (sdict_get fields k); discriminate. }
  assert (NoFuel2 : forall v, first_item v <> OutOfFuel).
  { intros v. destruct v as [| | | [| c s] | [| x l] |]; simpl; discriminate. }
  assert (NoFuel3 : forall v, as_number v <> OutOfFuel).
  { intros v. destruct v; simpl; discriminate. }
  destruct (item data "features") as [features | e |] eqn:E1; cbn [bind try_except];
    [| split; [eexists; reflexivity |]; intros r; split; [discriminate |];
       intros (s & d & vd & vu & m & sec & R & _ & P & _); injection R as <- <-;
       rewrite E1 in P; discriminate
     | exfalso; apply (NoFuel1 _ _ E1)].
  destruct (first_item features) as [feature | e |] eqn:E2; cbn [bind try_except];
    [| split; [eexists; reflexivity |]; intros r; split; [discriminate |];
       intros (s & d & vd & vu & m & sec & R & _ & P & _); injection R as <- <-;
       rewrite E1 in P; cbn [bind] in P; rewrite E2 in P; discriminate
     | exfalso; apply (NoFuel2 _ E2)].
  destruct (item feature "geometry") as [geometry | e |] eqn:E3; cbn [bind try_except];
    [| split; [eexists; reflexivity |]; intros r; split; [discriminate |];
       intros (s & d & vd & vu & m & sec & R & _ & P & _); injection R as <- <-;
       rewrite E1 in P; cbn [bind] in P; rewrite E2 in P; cbn [bind] in P;
       rewrite E3 in P; discriminate
     | exfalso; apply (NoFuel1 _ _ E3)].
  destruct (item geometry "coordinates") as [coords | e |] eqn:E4; cbn [bind try_except];
    [| split; [eexists; reflexivity |]; intros r; split; [discriminate |];
       intros (s & d & vd & vu & m & sec & R & _ & P & _); injection R as <- <-;
       rewrite E1 in P; cbn [bind] in P; rewrite E2 in P; cbn [bind] in P;
       rewrite E3 in P; cbn [bind] in P; rewrite E4 in P; discriminate
     | exfalso; apply (NoFuel1 _ _ E4)].
  destruct (item feature "properties") as [properties | e |] eqn:E5; cbn [bind try_except];
    [| split; [eexists; reflexivity |]; intros r; split; [discriminate |];
       intros (s & d & vd & vu & m & sec & R & _ & _ & P & _); injection R as <- <-;
       rewrite E1 in P; cbn [bind] in P; rewrite E2 in P; cbn [bind] in P;
       rewrite E5 in P; discriminate
     | exfalso; apply (NoFuel1 _ _ E5)].
  destruct (item properties "summary") as [props | e |] eqn:E6; cbn [bind try_except];
    [| split; [eexists; reflexivity |]; intros r; split; [discriminate |];
       intros (s & d & vd & vu & m & sec & R & _ & _ & P & _); injection R as <- <-;
       rewrite E1 in P; cbn [bind] in P; rewrite E2 in P; cbn [bind] in P;
       rewrite E5 in P; cbn [bind] in P; rewrite E6 in P; discriminate
     | exfalso; apply (NoFuel1 _ _ E6)].
  destruct (item props "distance") as [dist_m | e |] eqn:E7; cbn [bind try_except];
    [| split; [eexists; reflexivity |]; intros r; split; [discriminate |];
       intros (s & d & vd & vu & m & sec & R & _ & _ & P & _); injection R as <- <-;
       rewrite E1 in P; cbn [bind] in P; rewrite E2 in P; cbn [bind] in P;
       rewrite E5 in P; cbn [bind] in P; rewrite E6 in P; cbn [bind] in P;
       rewrite E7 in P; discriminate
     | exfalso; apply (NoFuel1 _ _ E7)].
  destruct (item props "duration") as [dur_s | e |] eqn:E8; cbn [bind try_except];
    [| split; [eexists; reflexivity |]; intros r; split; [discriminate |];
       intros (s & d & vd & vu & m & sec & R & _ & _ & _ & P & _); injection R as <- <-;
       rewrite E1 in P; cbn [bind] in P; rewrite E2 in P; cbn [bind] in P;
       rewrite E5 in P; cbn [bind] in P; rewrite E6 in P; cbn [bind] in P;
       rewrite E8 in P; discriminate
     | exfalso; apply (NoFuel1 _ _ E8)].
  destruct (as_number dist_m) as [distance | e |] eqn:E9; cbn [bind try_except];
    [| split; [eexists; reflexivity |]; intros r; split; [discriminate |];
       intros (s & d & vd & vu & m & sec & R & _ & _ & P & _ & N & _); injection R as <- <-;
       rewrite E1 in P; cbn [bind] in P; rewrite E2 in P; cbn [bind] in P;
       rewrite E5 in P; cbn [bind] in P; rewrite E6 in P; cbn [bind] in P;
       rewrite E7 in P; cbn [bind] in P; injection P as <-; congruence
     | exfalso; apply (NoFuel3 _ E9)].
  destruct (as_number dur_s) as [duration | e |] eqn:E10; cbn [bind try_except];
    [| split; [eexists; reflexivity |]; intros r; split; [discriminate |];
       intros (s & d & vd & vu & m & sec & R & _ & _ & _ & P & _ & N & _);
       injection R as <- <-;
       rewrite E1 in P; cbn [bind] in P; rewrite E2 in P; cbn [bind] in P;
       rewrite E5 in P; cbn [bind] in P; rewrite E6 in P; cbn [bind] in P;
       rewrite E8 in P; cbn [bind] in P; injection P as <-; congruence
     | exfalso; apply (NoFuel3 _ E10)].
  split; [eexists; reflexivity |].
  intros r. split.
  - intros H. injection H as <-. cbn [r_coords].
    exists status_code, data, dist_m, dur_s, distance, duration.
    rewrite E1. cbn [bind]. rewrite E2. cbn [bind]. rewrite E3, E5. cbn [bind].
    rewrite E4, E6. cbn [bind]. rewrite E7, E8.
    repeat split; try assumption; reflexivity.
  - intros (s & d & vd & vu & m & sec & R & _ & P1 & P2 & P3 & N1 & N2 & Eq).
    injection R as <- <-.
    rewrite E1 in P1, P2, P3. cbn [bind] in P1, P2, P3.
    rewrite E2 in P1, P2, P3. cbn [bind] in P1, P2, P3.
    rewrite E3 in P1. rewrite E5 in P2, P3. cbn [bind] in P1, P2, P3.
    rewrite E4 in P1. rewrite E6 in P2, P3. cbn [bind] in P1, P2, P3.
    rewrite E7 in P2. rewrite E8 in P3. cbn [bind] in P2, P3.
    injection P1 as P1. injection P2 as <-. injection P3 as <-.
    rewrite E9 in N1. rewrite E10 in N2. injection N1 as <-. injection N2 as <-.
    rewrite Eq. rewrite <- P1. reflexivity.
Qed.

(** The two services on a well-formed answer. *)
Example geocode_one_hit :
  geocode demo_float "me@example.org" (fun _ => Reply 200 (Parsed one_hit)) "Seattle"
  = Ret (Some (- (1223 # 10), 476 # 10)).
Proof. reflexivity. Qed.

Example get_route_one_feature :
  exists r,
    get_route (fun _ _ _ => Reply 200 (Parsed one_feature)) (0, 0) (1, 0) "key" = Ret (Some r)
    /\ r_distance_mi r == 69093348345 # 1000000000
    /\ r_duration_hrs r == 2.
Proof. eexists. split; [reflexivity |]. split; reflexivity. Qed.

End ServiceExtras.

Module WeatherExtras.
Import Py Data Routing Weather Notions Reference PyFacts DecoderFacts AlignmentFacts FetchFacts.

(** A scan that returns has met no entry of the other awareness. *)
Lemma scan_returns_same_awareness `{L : Lib} (target : datetime) :
  forall (times : list string) (i : nat) (best_idx : option nat) (best_diff : option Q),
    returns (nearest_scan times i target best_idx best_diff) ->
    Forall (same_awareness target) times.
Proof.
  induction times as [| t_str rest IH]; intros i best_idx best_diff R; [constructor |].
  cbn [nearest_scan] in R.
  destruct (fromisoformat t_str) as [t |] eqn:Parse.
  - unfold datetime_sub in R.
    destruct (utcoffset t) as [ot |] eqn:Ot, (utcoffset target) as [og |] eqn:Og;
      cbn [bind] in R;
      try (destruct R as [r Hr]; discriminate).
    + constructor; [unfold same_awareness; rewrite Parse, Ot, Og; reflexivity |].
      destruct (below _ best_diff); apply (IH _ _ _ R).
    + constructor; [unfold same_awareness; rewrite Parse, Ot, Og; reflexivity |].
      destruct (below _ best_diff); apply (IH _ _ _ R).
  - constructor; [unfold same_awareness; rewrite Parse; exact I |].
    apply (IH _ _ _ R).
Qed.

Lemma nearest_returns_iff_scan `{L : Lib} (times : list string) (target : datetime) :
  returns (_nearest_hour_index times target)
  <-> returns (nearest_scan times 0 target None None).
Proof.
  unfold _nearest_hour_index. split.
  - intros [r Hr].
    destruct (nearest_scan times 0 target None None) as [p | e |]; cbn [bind] in Hr;
      try discriminate. eexists; reflexivity.
  - intros [[bi bd] Hp]. rewrite Hp. cbn [bind].
    destruct bd as [d |]; [destruct (Qle_bool d horizon_seconds) |]; eexists; reflexivity.
Qed.

(** [_nearest_hour_index] returns (an index or not-found) exactly when
    every parsable entry is naive or aware as the target is; otherwise it
    raises, and never anything but [TypeError]. *)
Theorem nearest_hour_returns_iff_same_awareness `{L : Lib}
        (times : list string) (target : datetime) :
  (returns (_nearest_hour_index times target)
   <-> Forall (same_awareness target) times)
  /\ (forall e, _nearest_hour_index times target = Raise e -> exn_class e = TypeError)
  /\ _nearest_hour_index times target <> OutOfFuel.
Proof.
  assert (Class : forall ts i bi bd e,
             nearest_scan ts i target bi bd = Raise e -> exn_class e = TypeError).
  { induction ts as [| t_str rest IH]; intros i bi bd e H; cbn [nearest_scan] in H;
      [discriminate |].
    destruct (fromisoformat t_str) as [t |]; [| apply (IH _ _ _ _ H)].
    unfold datetime_sub in H.
    destruct (utcoffset t), (utcoffset target); cbn [bind] in H;
      try (injection H as <-; reflexivity);
      destruct (below _ bd); apply (IH _ _ _ _ H). }
  refine (conj _ (conj _ _)).
  - rewrite nearest_returns_iff_scan. split.
    + apply scan_returns_same_awareness.
    + intros Aware.
      destruct (scan_run target times [] None None Aware) as (bi & bd & Run & _).
      * simpl. intros j Hj. lia.
      * simpl in Run. eexists. exact Run.
  - intros e H. unfold _nearest_hour_index in H.
    destruct (nearest_scan times 0 target None None) as [[bi bd] | e' |] eqn:S;
      cbn [bind] in H.
    + destruct bd as [d |]; [destruct (Qle_bool d horizon_seconds) |]; discriminate.
    + injection H as <-. apply (Class _ _ _ _ _ S).
    + discriminate.
  - intros H. unfold _nearest_hour_index in H.
    destruct (nearest_scan times 0 target None None) as [[bi bd] | e' |] eqn:S;
      cbn [bind] in H.
    + destruct bd as [d |]; [destruct (Qle_bool d horizon_seconds) |]; discriminate.
    + discriminate.
    + apply (nearest_scan_not_stuck _ _ _ _ _ S).
Qed.

(** An index that [_nearest_hour_index] returns is a position of the
    series, whose entry parses and lies within 12 hours of the target;
    and an empty series gives not-found. *)
Theorem nearest_hour_index_valid `{L : Lib} (times : list string) (target : datetime)
        (i : nat) :
  _nearest_hour_index times target = Ret (Some i) ->
  (i < List.length times)%nat
  /\ (exists t_str t,
         nth_error times i = Some t_str /\ fromisoformat t_str = Some t)
  /\ (exists d, diff_at times target i = Some d /\ d <= horizon_seconds)
  /\ _nearest_hour_index [] target = Ret None.
Proof.
  intros H.
  assert (Aware : Forall (same_awareness target) times).
  { apply (scan_returns_same_awareness target times 0%nat None None).
    apply nearest_returns_iff_scan. eexists. exact H. }
  destruct (scan_run target times [] None None Aware) as (bi & bd & Run & Inv).
  { simpl. intros j Hj. lia. }
  simpl in Run, Inv. unfold _nearest_hour_index in H. rewrite Run in H. cbn [bind] in H.
  unfold scan_inv in Inv.
  destruct bi as [b |], bd as [d |]; try contradiction.
  - destruct Inv as (Hb & Hd & _).
    destruct (Qle_bool d horizon_seconds) eqn:W; [| discriminate].
    injection H as <-. apply Qle_bool_iff in W.
    refine (conj Hb (conj _ (conj _ eq_refl))).
    + unfold diff_at, entry_diff in Hd.
      destruct (nth_error times b) as [t_str |]; [| discriminate].
      destruct (fromisoformat t_str) as [t |] eqn:P; [| discriminate].
      exists t_str, t. split; [reflexivity | assumption].
    + exists d. split; assumption.
  - discriminate.
Qed.

Lemma nearest_hour_index_valid_witness :
  (2 < List.length ["2024-01-01T08:00"; "not a time"; "2024-01-01T09:00"]%string)%nat.
Proof.
  destruct (nearest_hour_index_valid
              ["2024-01-01T08:00"; "not a time"; "2024-01-01T09:00"]%string
              {| wall_us := 1704099000000000; utcoffset := None |} 2%nat)
    as (Bound & _).
  - vm_compute. reflexivity.
  - exact Bound.
Defined.




Lemma zdict_get_in {V : Type} (d : list (Z * V)) (k : Z) (v : V) :
  zdict_get d k = Some v -> In (k, v) d.
Proof.
  induction d as [| [k' v'] d IH]; simpl; [discriminate |].
  destruct (Z.eqb_spec k' k) as [-> | N].
  - intros E. injection E as ->. left. reflexivity.
  - intros E. right. apply IH. exact E.
Qed.

Lemma table_tagged (c : Z) (p : option string) (l : string) :
  zdict_get _PRECIP_TYPE_MAP c = Some (p, l) -> tagged p.
Proof.
  intros E. apply zdict_get_in in E. simpl in E.
  repeat (destruct E as [E | E];
          [inversion E; subst;
           first [left; reflexivity
                 | right; eexists; split; [reflexivity | simpl; tauto]] |]).
  contradiction.
Qed.

Lemma decode_tagged `{L : Lib} (code : pyval) (pt : decoded) :
  decode_precipitation_type code = Ret pt -> tagged (d_precip_type pt).
Proof.
  assert (Table : forall c,
             (let '(p, l) := match zdict_get _PRECIP_TYPE_MAP c with
                             | Some entry => entry
                             | None => (None, ("Type " ++ show_Z c)%string)
                             end in
              Ret {| d_precip_type := p; d_label := l |}) = Ret pt ->
             tagged (d_precip_type pt)).
  { intros c. destruct (zdict_get _PRECIP_TYPE_MAP c) as [[p l] |] eqn:E.
    - intros H. injection H as <-. apply (table_tagged c p l E).
    - intros H. injection H as <-. left. reflexivity. }
  unfold decode_precipitation_type.
  destruct code as [| b | z | x | s |]; cbn [int_of].
  - intros E. injection E as <-. left. reflexivity.
  - apply Table.
  - apply Table.
  - destruct x as [q | | neg]; cbn [exn_class].
    + apply Table.
    + intros E. injection E as <-. left. reflexivity.
    + discriminate.
  - destruct (int_of_str s) as [z |]; cbn [exn_class].
    + apply Table.
    + intros E. injection E as <-. left. reflexivity.
  - intros E. injection E as <-. left. reflexivity.
Qed.

Lemma refine_tagged (pt : decoded) (wmo : option Z) :
  tagged (d_precip_type pt) ->
  tagged (fst (refine_with_wmo pt wmo)) /\ snd (refine_with_wmo pt wmo) <> None.
Proof.
  intros Hp. unfold refine_with_wmo. destruct wmo as [w |]; [| split; [exact Hp | discriminate]].
  destruct (zdict_get _WMO_PRECIP_TYPE w) as [kind |] eqn:O.
  - apply zdict_get_in in O. simpl in O.
    repeat (destruct O as [O | O];
            [inversion O; subst; cbn;
             destruct (d_precip_type pt) as [p |]; cbn;
             (split; [first [exact Hp
                            | right; eexists; split; [reflexivity | simpl; tauto]]
                     | discriminate]) |]).
    contradiction.
  - cbn [fog_or_thunderstorm truthy andb].
    rewrite andb_false_r.
    destruct (is_none (d_precip_type pt) && truthy (zdict_get _WMO_LABEL w)) eqn:T.
    + split; [exact Hp |]. apply andb_true_iff in T. destruct T as [_ T].
      destruct (zdict_get _WMO_LABEL w); [discriminate | discriminate T].
    + split; [exact Hp | discriminate].
Qed.

(** Whatever the two code arrays hold at the selected index, the record
    [_fetch_one] builds has a [precip_type] that is null or one of the
    eight tags, and a [condition] label that is never missing. *)
Theorem populated_record_is_tagged `{L : Lib} (hourly : hourly_data) (best_idx : nat)
        (wind_warning_mph : Q) :
  exists w,
    populate hourly best_idx wind_warning_mph = Ret w
    /\ (precip_type w = None
        \/ exists tag, precip_type w = Some tag /\ In tag taxonomy)
    /\ condition w <> None.
Proof.
  destruct (populate_returns hourly best_idx wind_warning_mph) as (w & Run & _).
  exists w. split; [exact Run |].
  destruct (populate_two_stage hourly best_idx wind_warning_mph w Run) as (pt & Dec & Two).
  pose proof (refine_tagged pt (option_map trunc (val hourly best_idx "weather_code" None))
                            (decode_tagged _ _ Dec)) as [T C].
  rewrite <- Two in T, C. exact (conj T C).
Qed.

Lemma val_unusable (hourly : hourly_data) (best_idx : nat) (key : string)
      (fallback : option Q) :
  unusable hourly best_idx key -> val hourly best_idx key fallback = fallback.
Proof.
  unfold unusable, element, val.
  destruct (nth_error _ best_idx) as [[| x |] |]; [reflexivity | contradiction | reflexivity | reflexivity].
Qed.

(** The visibility of a populated record never exceeds 99 miles and is
    not negative when the reported visibility is not; and the wind
    warning is raised exactly when the reported speed, before rounding,
    reaches the threshold (a missing speed counting as 0). *)
Theorem populated_visibility_and_warning `{L : Lib} (hourly : hourly_data) (best_idx : nat)
        (wind_warning_mph : Q) :
  exists w,
    populate hourly best_idx wind_warning_mph = Ret w
    /\ vis_mi w <= 99
    /\ (forall x, has_value hourly best_idx "visibility" x -> 0 <= x -> 0 <= vis_mi w)
    /\ (forall x, has_value hourly best_idx "wind_speed_10m" x ->
                  (wind_warning w = true <-> wind_warning_mph <= x))
    /\ (unusable hourly best_idx "wind_speed_10m" ->
        (wind_warning w = true <-> wind_warning_mph <= 0)).
Proof.
  unfold populate.
  destruct (decode_code_value (val hourly best_idx "precipitation_type" None)) as [d Hd].
  rewrite Hd. cbn [bind].
  destruct (refine_with_wmo d _) as [pt cond].
  eexists. split; [reflexivity |].
  cbn [vis_mi wind_warning].
  refine (conj _ (conj _ (conj _ _))).
  - apply (Qle_trans _ (round 99 1)); [| vm_compute; discriminate].
    apply round_mono. unfold qmin.
    destruct (Qlt_le_dec 99 _); [apply Qle_refl | assumption].
  - intros x V Hx. rewrite (val_value _ _ _ _ _ V).
    apply (Qle_trans _ (round 0 1)); [vm_compute; discriminate |].
    apply round_mono. unfold qmin.
    destruct (Qlt_le_dec 99 _); [discriminate |].
    pose proof (or_zero_some x) as E.
    apply Qle_shift_div_l; [reflexivity |]. lra.
  - intros x V. rewrite (val_value _ _ _ _ _ V). rewrite Qle_bool_iff.
    rewrite or_zero_some. reflexivity.
  - intros U. rewrite (val_unusable _ _ _ _ U). rewrite Qle_bool_iff. reflexivity.
Qed.

(** When no array gives anything usable at the selected index (keys
    absent, arrays too short, nulls, unconvertible elements), the record
    is still built, [available] true, from the fall-back values alone. *)
Theorem populate_defaults_when_unusable `{L : Lib} (hourly : hourly_data) (best_idx : nat)
        (wind_warning_mph : Q) :
  (forall key, In key hourly_keys -> unusable hourly best_idx key) ->
  populate hourly best_idx wind_warning_mph = Ret (default_record wind_warning_mph).
Proof.
  intros U. unfold populate.
  rewrite !val_unusable by (apply U; simpl; tauto).
  reflexivity.
Qed.

Lemma populate_defaults_when_unusable_witness :
  populate {| time := ["2024-01-01T08:00"%string];
              series := [("temperature_2m"%string, [JBad]); ("rain"%string, [])] |}
           0 40
  = Ret (default_record 40).
Proof.
  apply populate_defaults_when_unusable.
  intros key H. simpl in H.
  repeat (destruct H as [<- | H]; [exact I |]). contradiction.
Defined.

Lemma to_naive_utc_twice (d : datetime) : to_naive_utc (to_naive_utc d) = to_naive_utc d.
Proof. unfold to_naive_utc. destruct (utcoffset d) as [off |] eqn:E; [reflexivity |]. rewrite E. reflexivity. Qed.

(** [_fetch_one] looks at the arrival time only through its UTC wall
    clock: a waypoint whose arrival carries a UTC offset gets exactly
    the record of the same waypoint with the arrival converted to naive
    UTC, on every answer of the network. *)
Theorem fetch_one_normalises_zone `{L : Lib} (wp wp' : waypoint) (d : datetime)
        (wind_warning_mph : Q) (net : http) :
  arrival_dt wp = Some d ->
  arrival_dt wp' = Some (to_naive_utc d) ->
  _fetch_one wp wind_warning_mph net = _fetch_one wp' wind_warning_mph net.
Proof.
  intros H H'. unfold _fetch_one. rewrite H, H'. rewrite to_naive_utc_twice. reflexivity.
Qed.

Lemma fetch_one_normalises_zone_witness :
  _fetch_one {| lon := 0; lat := 0; mile := 50; label := "a";
                arrival_dt := Some {| wall_us := 1704106200000000;
                                      utcoffset := Some 7200000000%Z |};
                arrival_str := None; weather := None |}
             40 (Response 200 (Json (Some sample_hourly)))
  = _fetch_one timed_checkpoint 40 (Response 200 (Json (Some sample_hourly))).
Proof.
  apply (fetch_one_normalises_zone _ _
           {| wall_us := 1704106200000000; utcoffset := Some 7200000000%Z |});
    reflexivity.
Defined.

(** Fetching before the estimator has run: a waypoint without an
    arrival time gets the unavailable record whose reason is the missing
    key, whatever the network would answer, and the call still returns
    the whole list in order. *)
Theorem fetch_without_arrival_times `{L : Lib} (wps : list waypoint)
        (wind_warning_mph : Q) (net : nat -> http) (completed : list nat) :
  Permutation completed (seq 0 (List.length wps)) ->
  Forall (fun wp => arrival_dt wp = None) wps ->
  fetch_weather_for_waypoints wps wind_warning_mph net completed
  = Ret (map (fun wp => set_weather wp (_weather_unavailable "'arrival_dt'")) wps).
Proof.
  intros Perm Missing.
  assert (Range : forall idx, In idx completed <-> (idx < List.length wps)%nat).
  { intros idx. split; intros H.
    - apply (Permutation_in _ Perm) in H. apply in_seq in H. lia.
    - apply (Permutation_in _ (Permutation_sym Perm)). apply in_seq. lia. }
  destruct (PoolFacts.collect_all_run wps wind_warning_mph net completed wps (fun _ => False))
    as (annotated & Ran & Len & Slots).
  - intros idx H. apply Range. assumption.
  - split; [reflexivity |]. intros idx wp Hwp. exists wp.
    refine (conj Hwp (conj _ _)); [intros w; reflexivity | contradiction].
  - unfold fetch_weather_for_waypoints. rewrite Ran. f_equal.
    apply nth_error_ext. intros idx. rewrite nth_error_map.
    destruct (nth_error wps idx) as [wp |] eqn:Hwp.
    + destruct (Slots idx wp Hwp) as (x & Hx & _ & Done).
      rewrite Hx. simpl. f_equal. apply Done.
      * right. apply Range. apply nth_error_Some. congruence.
      * rewrite Forall_forall in Missing.
        unfold collect, _fetch_one. rewrite (Missing wp (nth_error_In _ _ Hwp)). reflexivity.
    + simpl. apply nth_error_None. apply nth_error_None in Hwp. lia.
Qed.

Lemma fetch_without_arrival_times_witness :
  fetch_weather_for_waypoints
    [new_waypoint 0 0 50 "a"; new_waypoint 1 0 100 "b"] 40 App.forecast [1; 0]%nat
  = Ret (map (fun wp => set_weather wp (_weather_unavailable "'arrival_dt'"))
             [new_waypoint 0 0 50 "a"; new_waypoint 1 0 100 "b"]).
Proof.
  apply fetch_without_arrival_times.
  - simpl. apply perm_swap.
  - repeat constructor.
Defined.

End WeatherExtras.

Module AppExtras.
Import Py Data Routing Weather App Presentation Notions Reference.
Import PyFacts RoutingFacts RoutingMore PlanClaims FetchFacts PoolFacts.

Lemma sdict_get_in {V : Type} (d : list (string * V)) (k : string) (v : V) :
  sdict_get d k = Some v -> In (k, v) d.
Proof.
  induction d as [| [k' v'] d IH]; simpl; [discriminate |].
  destruct (String.eqb_spec k' k) as [-> | N].
  - intros E. injection E as ->. left. reflexivity.
  - intros E. right. apply IH. exact E.
Qed.

(** Every colour name [precip_dot_color] can return has an entry in
    [FILL_COLORS], so the marker never falls back to the default fill;
    a waypoint without a forecast, or with an unavailable one, is blue
    and its popup shows the stored reason; and a wind warning on an
    available record is red whatever is falling. *)
Theorem marker_colour_contract :
  (forall weather, exists hex,
      sdict_get FILL_COLORS (precip_dot_color weather) = Some hex)
  /\ precip_dot_color None = "blue"%string
  /\ (forall w, available w = false -> precip_dot_color (Some w) = "blue"%string)
  /\ (forall text,
         precip_dot_color (Some (_weather_unavailable text)) = "blue"%string
         /\ popup_reason (Some (_weather_unavailable text)) = text)
  /\ (forall w, available w = true -> wind_warning w = true ->
                precip_dot_color (Some w) = "red"%string)
  /\ (forall w, available w = true -> wind_warning w = false -> precip_type w = None ->
                precip_dot_color (Some w)
                = (if Qle_bool (cloud_pct w) 75 then "green" else "gray")%string).
Proof.
  refine (conj _ (conj eq_refl (conj _ (conj _ (conj _ _))))).
  - intros weather. unfold precip_dot_color.
    destruct weather as [w |]; [| eexists; reflexivity].
    destruct (available w); cbn [negb]; [| eexists; reflexivity].
    destruct (wind_warning w); [eexists; reflexivity |].
    assert (Fallback : exists hex,
               sdict_get FILL_COLORS
                 (if Qle_bool (cloud_pct w) 75 then "green" else "gray")%string = Some hex)
      by (destruct (Qle_bool (cloud_pct w) 75); eexists; reflexivity).
    destruct (precip_type w) as [pt |]; [| exact Fallback].
    destruct (sdict_get precip_colors pt) as [colour |] eqn:E; [| exact Fallback].
    apply sdict_get_in in E. simpl in E.
    repeat (destruct E as [E | E]; [inversion E; subst; eexists; reflexivity |]).
    contradiction.
  - intros w Hw. unfold precip_dot_color. rewrite Hw. reflexivity.
  - intros text. split; reflexivity.
  - intros w Ha Hw. unfold precip_dot_color. rewrite Ha, Hw. reflexivity.
  - intros w Ha Hw Hp. unfold precip_dot_color. rewrite Ha, Hw, Hp. reflexivity.
Qed.

Lemma is_empty_iff (s : string) : is_empty s = true <-> s = EmptyString.
Proof. destruct s; simpl; split; intros H; congruence. Qed.

Section Handler.
Context `{L : Lib} `{G : Geodesy} `{W : World}.
Variable ORS_API_KEY : string.
Variable WIND_WARNING_MPH : Z.



End Handler.






End AppExtras.
